(** * Haiku generator widget: the request / fallback / error-state logic

    A shallow embedding of the [HaikuGenerator] React component
    (PoemWidget.jsx): its five pieces of state, the handlers
    [generateHaikuFromAPI], [generateFallbackHaiku], [handleGenerate],
    [handleSampleClick] and [handleKeyPress], and the JavaScript primitives
    they rely on ([String.prototype.trim], [String.prototype.includes],
    [||] on strings, [Math.floor (Math.random () * n)], array indexing,
    [try]/[catch]/[finally]). *)

From Stdlib Require Import String Ascii.
From Stdlib Require Import List ZArith NArith QArith Bool Lia.
From Stdlib Require Import Floats.SpecFloat.
Import ListNotations.

(** ** JavaScript strings *)

(** A JavaScript string is a sequence of UTF-16 code units. *)
Module JsString.

Definition t := list N.

(** An ASCII literal of the source, as code units. *)
Definition lit (s : string) : t := map N_of_ascii (list_ascii_of_string s).

(** The escape [\n] of a JavaScript literal, and the double quote. *)
Definition nl : t := [10%N].
Definition dquote : t := [34%N].

(** WhiteSpace and LineTerminator of ECMAScript, the code points that
    [trim] strips: TAB, LF, VT, FF, CR, SP, NBSP, the Unicode space
    separators (Zs), LS, PS and the byte order mark. *)
Definition is_white_space (c : N) : bool :=
  ((9 <=? c) && (c <=? 13) || (c =? 32) || (c =? 160) || (c =? 5760)
   || (8192 <=? c) && (c <=? 8202) || (c =? 8232) || (c =? 8233)
   || (c =? 8239) || (c =? 8287) || (c =? 12288) || (c =? 65279))%N.

Fixpoint trimStart (s : t) : t :=
  match s with
  | c :: s' => if is_white_space c then trimStart s' else s
  | [] => []
  end.

Definition trimEnd (s : t) : t := rev (trimStart (rev s)).

(** [s.trim()] *)
Definition trim (s : t) : t := trimEnd (trimStart s).

Fixpoint eqb (a b : t) : bool :=
  match a, b with
  | [], [] => true
  | x :: a', y :: b' => (x =? y)%N && eqb a' b'
  | _, _ => false
  end.

Fixpoint startsWith (s p : t) {struct p} : bool :=
  match p, s with
  | [], _ => true
  | x :: p', y :: s' => (x =? y)%N && startsWith s' p'
  | _ :: _, [] => false
  end.

(** [s.includes(p)]: [p] occurs in [s] at some position. *)
Fixpoint includes (s p : t) : bool :=
  startsWith s p ||
  match s with
  | [] => false
  | _ :: s' => includes s' p
  end.

(** The truth value of a string: only the empty string is falsy. *)
Definition truthy (s : t) : bool :=
  match s with [] => false | _ :: _ => true end.

(** [a || b] on strings. *)
Definition or_else (a b : t) : t := if truthy a then a else b.

(** The number of occurrences of the code unit [c]. *)
Definition count (c : N) (s : t) : nat := count_occ N.eq_dec s c.

(** [p] is a substring of [s]. *)
Definition substring_of (p s : t) : Prop :=
  exists pre post, s = pre ++ p ++ post.

End JsString.

Abbreviation jsstring := JsString.t.
Abbreviation lit := JsString.lit.

(** A value that is a string or [undefined] ([None]): an environment
    variable that may be unset, an array element that may be out of
    range. *)
Definition maybe_string := option jsstring.

Definition maybe_truthy (v : maybe_string) : bool :=
  match v with Some s => JsString.truthy s | None => false end.

(** [v || d] where [v] may be undefined. *)
Definition maybe_or (v : maybe_string) (d : jsstring) : jsstring :=
  match v with
  | Some s => JsString.or_else s d
  | None => d
  end.

(** ** JavaScript numbers, as far as [Math.floor (Math.random () * n)]
    needs them *)

(** A finite non-negative binary64 number is [mant * 2 ^ expn] with a
    mantissa of at most 53 bits and an exponent of at least -1074.  The
    representation is not normalised: only the value matters. *)
Module Double.

Record t := mk { mant : Z; expn : Z }.

Definition prec : Z := 53.
Definition emin : Z := -1074.

Definition representable (x : t) : Prop :=
  (0 <= mant x < 2 ^ prec /\ emin <= expn x)%Z.

(** The numbers [Math.random ()] can return: at least [+0], below 1. *)
Definition unit_interval (x : t) : Prop :=
  (0 <= mant x < 2 ^ prec /\ emin <= expn x <= - prec)%Z.

Definition unit_intervalb (x : t) : bool :=
  ((0 <=? mant x) && (mant x <? 2 ^ prec)
   && (emin <=? expn x) && (expn x <=? - prec))%Z.

(** The number of binary digits of a non-negative integer. *)
Definition digits (m : Z) : Z :=
  if (m <=? 0)%Z then 0%Z else (Z.log2 m + 1)%Z.

(** Dropping the [d] low bits of [m], to nearest, ties to even. *)
Definition round_half_even (m d : Z) : Z :=
  if (d <=? 0)%Z then m
  else
    let q := Z.shiftr m d in
    let r := Z.land m (Z.ones d) in
    let h := Z.shiftl 1 (d - 1) in
    if (r <? h)%Z then q
    else if (h <? r)%Z then (q + 1)%Z
    else if Z.even q then q else (q + 1)%Z.

(** The exact value [m * 2 ^ e] rounded to binary64 (no overflow to
    Infinity is modelled: the results here stay below 4). *)
Definition round (m e : Z) : t :=
  let d := Z.max 0 (Z.max (digits m - prec) (emin - e)) in
  mk (round_half_even m d) (e + d).

(** [x * y] *)
Definition mul (x y : t) : t :=
  round (mant x * mant y) (expn x + expn y).

(** A small array length as a number. *)
Definition of_nat (n : nat) : t := mk (Z.of_nat n) 0.

(** The exact value of a number. *)
Definition value (x : t) : Q :=
  if (0 <=? expn x)%Z then inject_Z (mant x * 2 ^ expn x)
  else mant x # Z.to_pos (2 ^ (- expn x)).

(** The same number in the IEEE 754 binary64 format of the Standard
    Library, to compare [mul] with [SFmul]. *)
Definition to_spec (x : t) : spec_float :=
  binary_normalize 53 1024 (mant x) (expn x) false.

(** [Math.floor x], as an integer. *)
Definition floor (x : t) : Z :=
  if (0 <=? expn x)%Z then Z.shiftl (mant x) (expn x)
  else Z.shiftr (mant x) (- expn x).

End Double.

(** [arr[i]] for an integer [i]: [undefined] out of range. *)
Definition array_get (arr : list jsstring) (i : Z) : maybe_string :=
  if (i <? 0)%Z then None else nth_error arr (Z.to_nat i).

(** ** Component state and effects *)

(** The five [useState] cells of the component. *)
Record state := mkState {
  input : jsstring;
  haiku : maybe_string;
  isGenerating : bool;
  showInfo : bool;
  error : jsstring
}.

(** The state of the first render. *)
Definition initial_state : state :=
  mkState [] (Some []) false false [].

(** What a [throw] inside [generateHaikuFromAPI] can carry: the [Error]
    the function creates itself when the key is missing, or the [Error] of
    a failed remote call, with its [message]. *)
Inductive exn :=
| MissingApiKey
| RemoteFailure (message : jsstring).

Definition missing_key_message : jsstring :=
  lit "Gemini API key not found. Please add VITE_GEMINI_API_KEY to your .env file.".

(** [err.message] *)
Definition exn_message (e : exn) : jsstring :=
  match e with
  | MissingApiKey => missing_key_message
  | RemoteFailure m => m
  end.

(** What the handlers do to the outside, in order. *)
Inductive event :=
| SetInput (v : jsstring)
| SetHaiku (v : maybe_string)
| SetIsGenerating (v : bool)
| SetError (v : jsstring)
| ConsoleError (label : jsstring) (err : exn)
| ConsoleLog (msg : jsstring)
| GenerateContent (apiKey model prompt : jsstring)
| SetTimeout (ms : Z)
| MathRandom (u : Double.t).

Inductive completion (A : Type) :=
| Normal (a : A)
| Throw (e : exn).
Arguments Normal {A} a.
Arguments Throw {A} e.

(** A handler: from the state it starts in to how it completes, the
    state it leaves and the trace of what it did. *)
Definition M (A : Type) : Type := state -> completion A * state * list event.

Definition ret {A} (a : A) : M A := fun s => (Normal a, s, []).

Definition bind {A B} (m : M A) (k : A -> M B) : M B :=
  fun s =>
    match m s with
    | (Normal a, s1, t1) =>
        let '(r, s2, t2) := k a s1 in (r, s2, t1 ++ t2)
    | (Throw e, s1, t1) => (Throw e, s1, t1)
    end.

Definition throw {A} (e : exn) : M A := fun s => (Throw e, s, []).

(** [try { body } catch (err) { handler err }] *)
Definition try_catch {A} (body : M A) (handler : exn -> M A) : M A :=
  fun s =>
    match body s with
    | (Normal a, s1, t1) => (Normal a, s1, t1)
    | (Throw e, s1, t1) =>
        let '(r, s2, t2) := handler e s1 in (r, s2, t1 ++ t2)
    end.

(** [try { body } finally { fin }]: [fin] runs however [body] completes,
    and [body]'s completion stands unless [fin] itself throws. *)
Definition try_finally {A} (body : M A) (fin : M unit) : M A :=
  fun s =>
    let '(r, s1, t1) := body s in
    match fin s1 with
    | (Normal _, s2, t2) => (r, s2, t1 ++ t2)
    | (Throw e, s2, t2) => (Throw e, s2, t1 ++ t2)
    end.

Definition emit (e : event) : M unit := fun s => (Normal tt, s, [e]).

Declare Scope js_scope.
Delimit Scope js_scope with js.
Notation "x <- m ;; k" := (bind m (fun x => k))
  (at level 61, m at next level, right associativity) : js_scope.
Notation "m ;; k" := (bind m (fun _ => k))
  (at level 61, right associativity) : js_scope.
Open Scope js_scope.

Definition final_state {A} (r : completion A * state * list event) : state :=
  snd (fst r).
Definition trace {A} (r : completion A * state * list event) : list event :=
  snd r.
Definition outcome {A} (r : completion A * state * list event) : completion A :=
  fst (fst r).

(** The state setters. *)
Definition setInput (v : jsstring) : M unit :=
  fun s => (Normal tt,
            mkState v (haiku s) (isGenerating s) (showInfo s) (error s),
            [SetInput v]).

Definition setHaiku (v : maybe_string) : M unit :=
  fun s => (Normal tt,
            mkState (input s) v (isGenerating s) (showInfo s) (error s),
            [SetHaiku v]).

Definition setIsGenerating (v : bool) : M unit :=
  fun s => (Normal tt,
            mkState (input s) (haiku s) v (showInfo s) (error s),
            [SetIsGenerating v]).

Definition setError (v : jsstring) : M unit :=
  fun s => (Normal tt,
            mkState (input s) (haiku s) (isGenerating s) (showInfo s) v,
            [SetError v]).

(** ** The component *)

(** [import.meta.env] *)
Record Env := mkEnv {
  VITE_API_ENDPOINT : maybe_string;
  VITE_GEMINI_API_KEY : maybe_string;
  VITE_MODEL : maybe_string
}.

Record ApiConfig := mkApiConfig {
  endpoint : jsstring;
  apiKey : maybe_string;
  model : jsstring
}.

(** How the chain [import], [getGenerativeModel], [generateContent],
    [result.response], [response.text ()] ends: with the text, or with a
    thrown [Error] and its message. *)
Inductive remote_outcome :=
| Responds (text : jsstring)
| Fails (message : jsstring).

(** A template literal with [theme] interpolated: literal chunks and
    holes. *)
Inductive segment :=
| Chunk (s : jsstring)
| Theme.

Definition template := list segment.

Definition fill_segment (theme : jsstring) (g : segment) : jsstring :=
  match g with
  | Chunk s => s
  | Theme => theme
  end.

Definition fill (theme : jsstring) (t : template) : jsstring :=
  flat_map (fill_segment theme) t.

Definition holes (t : template) : nat :=
  length (filter (fun g => match g with Theme => true | Chunk _ => false end) t).

Definition fallbackTemplates : list template :=
  [ [Theme; Chunk (lit " whispers soft" ++ JsString.nl
                   ++ lit "In morning's gentle embrace" ++ JsString.nl
                   ++ lit "Peace fills the warm air")];
    [Chunk (lit "Dancing with "); Theme;
     Chunk (JsString.nl ++ lit "Nature's rhythm guides my heart"
            ++ JsString.nl ++ lit "Moments become gold")];
    [Theme; Chunk (lit " speaks to me" ++ JsString.nl
                   ++ lit "Through silence of the old trees" ++ JsString.nl
                   ++ lit "Wisdom flows like streams")] ].

Definition promptTemplate : template :=
  [Chunk (lit "Write a traditional haiku (5-7-5 syllables) about "
          ++ JsString.dquote);
   Theme;
   Chunk (JsString.dquote ++ lit ". " ++ JsString.nl
          ++ lit "                     Return only the haiku, with each line on a separate line. "
          ++ JsString.nl
          ++ lit "                     Make it beautiful and evocative.")].

Definition validation_message : jsstring :=
  lit "Please enter a word or theme for your haiku.".

Definition generic_failure_message : jsstring :=
  lit "Failed to generate haiku. Please try again.".

Definition sampleWords : list jsstring :=
  [lit "sunset"; lit "ocean"; lit "dream"; lit "hope";
   lit "love"; lit "rain"; lit "spring"; lit "joy"].

Section HaikuGenerator.

(** What the component reads from outside: the build-time environment,
    the remote service, and the next value of [Math.random ()]. *)
Variable env : Env.
Variable remote : jsstring -> jsstring -> jsstring -> remote_outcome.
Variable random : Double.t.

Definition API_CONFIG : ApiConfig :=
  mkApiConfig
    (maybe_or (VITE_API_ENDPOINT env) (lit "https://cloudaicompanion.googleapis.com"))
    (VITE_GEMINI_API_KEY env)
    (maybe_or (VITE_MODEL env) (lit "gemini-2.5-flash")).

(** [`${theme} whispers soft...`, ...] *)
Definition fallbackHaikus (theme : jsstring) : list jsstring :=
  map (fill theme) fallbackTemplates.

(** [Math.floor (Math.random () * fallbackHaikus.length)] *)
Definition randomIndex (theme : jsstring) : Z :=
  Double.floor (Double.mul random (Double.of_nat (length (fallbackHaikus theme)))).

Definition generateFallbackHaiku (theme : jsstring) : M unit :=
  emit (MathRandom random) ;;
  let randomHaiku := array_get (fallbackHaikus theme) (randomIndex theme) in
  setHaiku randomHaiku.

(** The awaited remote part of [generateHaikuFromAPI]'s [try] block. *)
Definition generateContent (key prompt : jsstring) : M jsstring :=
  emit (GenerateContent key (model API_CONFIG) prompt) ;;
  match remote key (model API_CONFIG) prompt with
  | Responds text => ret text
  | Fails message => throw (RemoteFailure message)
  end.

Definition generateHaikuFromAPI (theme : jsstring) : M unit :=
  try_finally
    (try_catch
       (setError [] ;;
        setIsGenerating true ;;
        key <- (match apiKey API_CONFIG with
                | Some k => if JsString.truthy k then ret k else throw MissingApiKey
                | None => throw MissingApiKey
                end) ;;
        let prompt := fill theme promptTemplate in
        text <- generateContent key prompt ;;
        let generatedHaiku := JsString.trim text in
        setHaiku (Some generatedHaiku))
       (fun err =>
          emit (ConsoleError (lit "Error generating haiku:") err) ;;
          (if JsString.includes (exn_message err) (lit "429")
              || JsString.includes (exn_message err) (lit "rate limit")
           then emit (ConsoleLog (lit "Using fallback generation due to rate limit"))
           else setError (JsString.or_else (exn_message err) generic_failure_message)) ;;
          generateFallbackHaiku theme))
    (setIsGenerating false).

Definition handleGenerate : M unit :=
  fun s =>
    let theme := JsString.trim (input s) in
    (if negb (JsString.truthy theme)
     then setError validation_message
     else if maybe_truthy (apiKey API_CONFIG)
          then generateHaikuFromAPI theme
          else (setIsGenerating true ;;
                emit (SetTimeout 1500) ;;
                generateFallbackHaiku theme ;;
                setIsGenerating false)) s.

Definition handleSampleClick (word : jsstring) : M unit :=
  setInput word ;;
  setError [].

(** [handleKeyPress e], given [e.key]. *)
Definition handleKeyPress (key : jsstring) : M unit :=
  if JsString.eqb key (lit "Enter") then handleGenerate else ret tt.

End HaikuGenerator.

(** ** Derived notions used in the statements *)

(** [h] is one of the three fallback haikus for [theme]. *)
Definition is_fallback_haiku (theme h : jsstring) : Prop :=
  exists t, In t fallbackTemplates /\ h = fill theme t.

Definition rate_limited (msg : jsstring) : bool :=
  JsString.includes msg (lit "429") || JsString.includes msg (lit "rate limit").

(** The error message the [catch] block of [generateHaikuFromAPI] leaves
    for a failure with message [msg], after the clearing [setError] of the
    [try] block. *)
Definition shown_error (msg : jsstring) : jsstring :=
  if rate_limited msg then []
  else JsString.or_else msg generic_failure_message.

(** What the [if] of the [catch] block does. *)
Definition catch_note (msg : jsstring) : event :=
  if rate_limited msg
  then ConsoleLog (lit "Using fallback generation due to rate limit")
  else SetError (JsString.or_else msg generic_failure_message).

(** ** Sample environments, services, draws and states *)

Module Samples.

Definition env_no_key : Env := mkEnv None None None.
Definition env_key : Env := mkEnv None (Some (lit "AIza-test-key")) None.

Definition three_lines : jsstring :=
  lit "Line1" ++ JsString.nl ++ lit "Line2" ++ JsString.nl ++ lit "Line3".

(** A service that answers with the three lines, padded with white space. *)
Definition remote_ok (_ _ _ : jsstring) : remote_outcome :=
  Responds (lit "  " ++ three_lines ++ JsString.nl).

Definition remote_429 (_ _ _ : jsstring) : remote_outcome :=
  Fails (lit "[429 Too Many Requests] Resource has been exhausted").

Definition remote_network (_ _ _ : jsstring) : remote_outcome :=
  Fails (lit "Network error").

Definition remote_no_message (_ _ _ : jsstring) : remote_outcome :=
  Fails [].

(** 0.125, 0.5 and 0.75, and the binary64 number just below 1/3. *)
Definition eighth : Double.t := Double.mk 1125899906842624 (-53).
Definition half : Double.t := Double.mk 4503599627370496 (-53).
Definition three_quarters : Double.t := Double.mk 6755399441055744 (-53).
Definition below_third : Double.t := Double.mk 6004799503160661 (-54).

(** The user typed " moon " after an earlier attempt left an error. *)
Definition typed_moon : state :=
  mkState (lit " moon ") (Some []) false false (lit "Network error").

(** The user pressed Enter on an empty field, then typed "moon": the
    validation message of the first attempt is still in [error]. *)
Definition moon_after_blank : state :=
  mkState (lit "moon") (Some []) false false validation_message.

Definition blank : state :=
  mkState (lit "   ") (Some (lit "an older haiku")) false true [].

(** The second fallback haiku for "moon". *)
Definition dancing_with_moon : jsstring :=
  lit "Dancing with moon" ++ JsString.nl
  ++ lit "Nature's rhythm guides my heart" ++ JsString.nl
  ++ lit "Moments become gold".

(** An ideographic space, a no-break space, a tab and a line feed. *)
Definition unicode_blank : state :=
  mkState [12288; 160; 9; 10]%N (Some []) false false [].

End Samples.

(** ** The rendered controls *)

(** [disabled={isGenerating || !input.trim()}] of the Generate button. *)
Definition generateDisabled (s : state) : bool :=
  isGenerating s || negb (JsString.truthy (JsString.trim (input s))).

(** [disabled={isGenerating}] of the text field and of the sample buttons. *)
Definition inputDisabled (s : state) : bool := isGenerating s.
Definition sampleDisabled (s : state) : bool := isGenerating s.

(** [{error && ...}] and [{haiku && ...}]: the error banner and the haiku
    panel are rendered when the value is truthy. *)
Definition errorShown (s : state) : bool := JsString.truthy (error s).
Definition haikuShown (s : state) : bool := maybe_truthy (haiku s).

(** [onChange={(e) => setInput(e.target.value)}] of the text field. *)
Definition handleChange (value : jsstring) : M unit := setInput value.

(** ** Further notions used in the statements *)

(** The remote calls of a trace, with their key, model and prompt. *)
Definition remote_calls (t : list event) : list (jsstring * jsstring * jsstring) :=
  flat_map (fun e => match e with
                     | GenerateContent k m p => [(k, m, p)]
                     | _ => []
                     end) t.

(** The state [s] with another content of the text field. *)
Definition with_input (s : state) (v : jsstring) : state :=
  mkState v (haiku s) (isGenerating s) (showInfo s) (error s).

(** A string that does not begin with white space. *)
Definition starts_clean (s : jsstring) : Prop :=
  match s with
  | [] => True
  | c :: _ => JsString.is_white_space c = false
  end.

Section RunCases.
Variable env : Env.
Variable remote : jsstring -> jsstring -> jsstring -> remote_outcome.
Variable u : Double.t.

(** The four ways a run of [handleGenerate] can go. *)
Inductive run_case (s : state) : Prop :=
| RunBlank :
    JsString.trim (input s) = [] ->
    handleGenerate env remote u s =
      (Normal tt,
       mkState (input s) (haiku s) (isGenerating s) (showInfo s) validation_message,
       [SetError validation_message]) ->
    run_case s
| RunNoKey :
    JsString.trim (input s) <> [] ->
    maybe_truthy (VITE_GEMINI_API_KEY env) = false ->
    (let theme := JsString.trim (input s) in
     let h := array_get (fallbackHaikus theme) (randomIndex u theme) in
     handleGenerate env remote u s =
       (Normal tt,
        mkState (input s) h false (showInfo s) (error s),
        [SetIsGenerating true; SetTimeout 1500; MathRandom u; SetHaiku h;
         SetIsGenerating false])) ->
    run_case s
| RunSuccess (key r : jsstring) :
    JsString.trim (input s) <> [] ->
    VITE_GEMINI_API_KEY env = Some key -> key <> [] ->
    remote key (model (API_CONFIG env))
      (fill (JsString.trim (input s)) promptTemplate) = Responds r ->
    handleGenerate env remote u s =
      (Normal tt,
       mkState (input s) (Some (JsString.trim r)) false (showInfo s) [],
       [SetError []; SetIsGenerating true;
        GenerateContent key (model (API_CONFIG env))
          (fill (JsString.trim (input s)) promptTemplate);
        SetHaiku (Some (JsString.trim r)); SetIsGenerating false]) ->
    run_case s
| RunFailure (key msg : jsstring) :
    JsString.trim (input s) <> [] ->
    VITE_GEMINI_API_KEY env = Some key -> key <> [] ->
    remote key (model (API_CONFIG env))
      (fill (JsString.trim (input s)) promptTemplate) = Fails msg ->
    (let theme := JsString.trim (input s) in
     let h := array_get (fallbackHaikus theme) (randomIndex u theme) in
     handleGenerate env remote u s =
       (Normal tt,
        mkState (input s) h false (showInfo s) (shown_error msg),
        [SetError []; SetIsGenerating true;
         GenerateContent key (model (API_CONFIG env)) (fill theme promptTemplate);
         ConsoleError (lit "Error generating haiku:") (RemoteFailure msg);
         catch_note msg; MathRandom u; SetHaiku h; SetIsGenerating false])) ->
    run_case s.

End RunCases.

Module MoreSamples.

(** A service that answers with white space only. *)
Definition remote_blank (_ _ _ : jsstring) : remote_outcome :=
  Responds (lit "  " ++ JsString.nl ++ lit " ").

(** The field holds "moon" with other margins than in [Samples.typed_moon]. *)
Definition moon_tabbed : jsstring := [9%N] ++ lit "moon" ++ JsString.nl.

(** A state in which an attempt is in progress. *)
Definition busy : state :=
  mkState (lit "moon") (Some (lit "an older haiku")) true false (lit "old error").

End MoreSamples.

(** Membership of a concrete number in the unit interval. *)
Ltac in_unit_interval :=
  unfold Double.unit_interval, Double.prec, Double.emin; simpl; lia.

(** * Properties *)

(** ** Strings *)

Module JsStringFacts.
Import JsString.

Lemma truthy_true (s : t) : truthy s = true <-> s <> [].
Proof. destruct s; simpl; split; congruence. Qed.

Lemma truthy_false (s : t) : truthy s = false <-> s = [].
Proof. destruct s; simpl; split; congruence. Qed.

Lemma or_else_nonempty (a b : t) : a <> [] -> or_else a b = a.
Proof. intros H. unfold or_else. now destruct a. Qed.

Lemma startsWith_spec (p s : t) :
  startsWith s p = true <-> exists post, s = p ++ post.
Proof.
  revert s. induction p as [|x p IH]; intros s; simpl.
  - split; [exists s; reflexivity | reflexivity].
  - destruct s as [|y s]; [split; [discriminate | intros [post H]; discriminate]|].
    rewrite andb_true_iff, N.eqb_eq, IH. split.
    + intros [-> [post ->]]. now exists post.
    + intros [post H]. injection H as -> ->. split; [reflexivity | now exists post].
Qed.

Lemma includes_spec (s p : t) :
  includes s p = true <-> substring_of p s.
Proof.
  unfold substring_of. induction s as [|c s IH]; simpl.
  - rewrite orb_false_r, startsWith_spec. split.
    + intros [post H]. now exists [], post.
    + intros (pre & post & H). destruct pre; simpl in H; [now exists post | discriminate].
  - rewrite orb_true_iff, startsWith_spec, IH. split.
    + intros [[post H]|(pre & post & H)].
      * now exists [], post.
      * exists (c :: pre), post. simpl. now rewrite H.
    + intros (pre & post & H). destruct pre as [|c' pre]; simpl in H.
      * left. now exists post.
      * right. injection H as _ ->. now exists pre, post.
Qed.

Lemma includes_false (s p : t) :
  includes s p = false <-> ~ substring_of p s.
Proof.
  rewrite <- includes_spec. destruct (includes s p); split; congruence.
Qed.

Lemma trimStart_nil (s : t) :
  trimStart s = [] <-> forallb is_white_space s = true.
Proof.
  induction s as [|c s IH]; simpl; [tauto|].
  destruct (is_white_space c); simpl; [exact IH | split; discriminate].
Qed.

Lemma trimStart_all_white (s : t) :
  forallb is_white_space (trimStart s) = true -> trimStart s = [].
Proof.
  induction s as [|c s IH]; simpl; [reflexivity|].
  destruct (is_white_space c) eqn:E; [exact IH|].
  simpl. rewrite E. discriminate.
Qed.

Lemma forallb_rev {A} (f : A -> bool) (l : list A) :
  forallb f (rev l) = forallb f l.
Proof.
  induction l as [|a l IH]; simpl; [reflexivity|].
  rewrite forallb_app, IH. simpl. rewrite andb_true_r. apply andb_comm.
Qed.

(** [trim] leaves nothing exactly of the strings made of white space. *)
Lemma trim_nil (s : t) :
  trim s = [] <-> forallb is_white_space s = true.
Proof.
  unfold trim, trimEnd. split.
  - intros H. apply (f_equal (@rev N)) in H. rewrite rev_involutive in H.
    simpl in H. apply trimStart_nil in H. rewrite forallb_rev in H.
    apply trimStart_all_white in H. now apply trimStart_nil.
  - intros H. apply trimStart_nil in H. now rewrite H.
Qed.

End JsStringFacts.

(** ** [Math.floor (Math.random () * 3)] *)

Module DoubleFacts.
Import Double.
Local Open Scope Z_scope.

Lemma round_half_even_unfold (m d : Z) :
  0 < d ->
  round_half_even m d =
    if m mod 2 ^ d <? 2 ^ (d - 1) then m / 2 ^ d
    else if 2 ^ (d - 1) <? m mod 2 ^ d then m / 2 ^ d + 1
    else if Z.even (m / 2 ^ d) then m / 2 ^ d else m / 2 ^ d + 1.
Proof.
  intros Hd. unfold round_half_even.
  destruct (Z.leb_spec d 0) as [H|_]; [lia|].
  rewrite Z.shiftr_div_pow2, Z.land_ones, Z.shiftl_mul_pow2 by lia.
  now rewrite Z.mul_1_l.
Qed.

Lemma digits_le (m n : Z) : 0 <= n -> 0 <= m < 2 ^ n -> digits m <= n.
Proof.
  intros Hn [H0 H1]. unfold digits.
  destruct (Z.leb_spec m 0); [lia|].
  assert (Z.log2 m < n) by (apply Z.log2_lt_pow2; lia). lia.
Qed.

Lemma digits_gt (m n : Z) : 0 <= n -> 2 ^ n <= m -> n < digits m.
Proof.
  intros Hn H. assert (0 < 2 ^ n) by (apply Z.pow_pos_nonneg; lia).
  unfold digits. destruct (Z.leb_spec m 0); [lia|].
  assert (n <= Z.log2 m) by (apply Z.log2_le_pow2; lia). lia.
Qed.

Lemma digits_eq (m n : Z) : 0 < n -> 2 ^ (n - 1) <= m < 2 ^ n -> digits m = n.
Proof.
  intros Hn [H0 H1].
  pose proof (@digits_le m n ltac:(lia) ltac:(split; [|lia]; pose proof (Z.pow_pos_nonneg 2 (n-1)); lia)).
  pose proof (@digits_gt m (n - 1) ltac:(lia) H0). lia.
Qed.


Lemma mul3_digits (m e d : Z) :
  emin <= e -> 0 <= d -> digits (m * 3) = prec + d ->
  mul (mk m e) (of_nat 3) = mk (round_half_even (m * 3) d) (e + d).
Proof.
  intros He Hd Hdig. unfold mul, round, of_nat; simpl mant; simpl expn.
  change (Z.of_nat 3) with 3. rewrite Z.add_0_r, Hdig.
  replace (Z.max 0 (Z.max (prec + d - prec) (emin - e))) with d by lia.
  reflexivity.
Qed.

Lemma mul3_exact (m e : Z) :
  emin <= e -> 0 <= m -> m * 3 < 2 ^ prec ->
  mul (mk m e) (of_nat 3) = mk (m * 3) e.
Proof.
  intros He Hm H. unfold mul, round, of_nat; simpl mant; simpl expn.
  change (Z.of_nat 3) with 3. rewrite Z.add_0_r.
  pose proof (@digits_le (m * 3) prec ltac:(unfold prec; lia) ltac:(lia)).
  assert (0 <= digits (m * 3)).
  { unfold digits. destruct (Z.leb_spec (m * 3) 0); [lia|].
    pose proof (Z.log2_nonneg (m * 3)). lia. }
  replace (Z.max 0 (Z.max (digits (m * 3) - prec) (emin - e))) with 0 by lia.
  unfold round_half_even. simpl. now rewrite Z.add_0_r.
Qed.

Lemma floor_neg (M E : Z) : E < 0 -> floor (mk M E) = M / 2 ^ (- E).
Proof.
  intros HE. unfold floor; simpl.
  destruct (Z.leb_spec 0 E); [lia|].
  apply Z.shiftr_div_pow2. lia.
Qed.

(** Rounding away one bit, and two bits, in terms of division. *)
Lemma round1_bounds (n : Z) :
  0 <= n ->
  let r := round_half_even n 1 in
  (2 * r = n \/ 2 * r = n + 1 \/ 2 * r = n - 1) /\
  (n mod 4 = 3 -> 2 * r = n + 1) /\ (n mod 4 = 1 -> 2 * r = n - 1).
Proof.
  intros Hn r. subst r. rewrite round_half_even_unfold by lia.
  change (2 ^ 1) with 2. change (2 ^ (1 - 1)) with 1.
  pose proof (Zmod_even (n / 2)) as Hev.
  destruct (Z.ltb_spec (n mod 2) 1); [|destruct (Z.ltb_spec 1 (n mod 2));
    [|destruct (Z.even (n / 2))]];
  Z.div_mod_to_equations; lia.
Qed.

Lemma round2_bounds (n : Z) :
  0 <= n ->
  let r := round_half_even n 2 in
  4 * r <= n + 2 /\ n <= 4 * r + 2 /\ (n mod 4 <= 1 -> 4 * r <= n).
Proof.
  intros Hn r. subst r. rewrite round_half_even_unfold by lia.
  change (2 ^ 2) with 4. change (2 ^ (2 - 1)) with 2.
  pose proof (Zmod_even (n / 4)) as Hev.
  destruct (Z.ltb_spec (n mod 4) 2); [|destruct (Z.ltb_spec 2 (n mod 4));
    [|destruct (Z.even (n / 4))]];
  Z.div_mod_to_equations; lia.
Qed.


(** The scale [2 ^ (- e - 53)] of a number below 1 is 1, 2 or at least 4. *)
Lemma scale_cases (e : Z) :
  e <= - prec ->
  (e = -53 /\ 2 ^ (- e - prec) = 1) \/ (e = -54 /\ 2 ^ (- e - prec) = 2)
  \/ (e <= -55 /\ 4 <= 2 ^ (- e - prec)).
Proof.
  unfold prec. intros He.
  assert (e = -53 \/ e = -54 \/ e <= -55) as [->|[->|H]] by lia.
  - left. split; reflexivity.
  - right; left. split; reflexivity.
  - right; right. split; [lia|].
    change 4 with (2 ^ 2). apply Z.pow_le_mono_r; lia.
Qed.

Lemma pow_split (e d : Z) :
  e <= - prec -> 0 <= d <= 2 ->
  2 ^ (- (e + d)) = 2 ^ (prec - d) * 2 ^ (- e - prec).
Proof.
  unfold prec. intros. rewrite <- Z.pow_add_r by lia. f_equal. lia.
Qed.

Theorem index3_spec (m e : Z) :
  0 <= m < 2 ^ prec -> emin <= e <= - prec ->
  let i := floor (mul (mk m e) (of_nat 3)) in
  0 <= i <= 2 /\
  (i = 0 <-> 3 * m * 2 ^ 54 < (2 ^ 54 - 1) * 2 ^ (- e)) /\
  (i = 2 <-> (2 ^ 54 - 1) * 2 ^ (- e) <= 3 * m * 2 ^ 53).
Proof.
  intros Hm He i.
  assert (HK : 2 ^ (- e) = 2 ^ prec * 2 ^ (- e - prec)).
  { replace (- e) with (- (e + 0)) at 1 by lia.
    rewrite pow_split by lia. now rewrite Z.sub_0_r. }
  pose proof (@scale_cases e ltac:(lia)) as HKc.
  rewrite HK. clear HK.
  unfold prec, emin in *.
  change (2 ^ 53) with 9007199254740992 in *.
  change (2 ^ 54) with 18014398509481984 in *.
  assert (m * 3 < 9007199254740992 \/
          9007199254740992 <= m * 3 < 18014398509481984 \/
          18014398509481984 <= m * 3) as [Hn|[Hn|Hn]] by lia.
  - (* the product is exact *)
    subst i. rewrite mul3_exact, floor_neg by (unfold prec, emin; lia || assumption).
    replace (- e) with (- (e + 0)) by lia.
    rewrite pow_split by (unfold prec; lia). unfold prec.
    change (2 ^ (53 - 0)) with 9007199254740992.
    replace (- (e + 0) - 53) with (- e - 53) by lia.
    set (K := 2 ^ (- e - 53)) in *.
    assert (1 <= K) by lia.
    rewrite Z.div_small by nia. lia.
  - (* one bit is rounded away *)
    assert (Hd : digits (m * 3) = prec + 1).
    { apply digits_eq; unfold prec; [lia|]. simpl. lia. }
    subst i. rewrite (@mul3_digits m e 1), floor_neg by (unfold emin; lia).
    rewrite pow_split by (unfold prec; lia). unfold prec.
    change (2 ^ (53 - 1)) with 4503599627370496.
    set (K := 2 ^ (- e - 53)) in *.
    destruct (@round1_bounds (m * 3) ltac:(lia)) as (Hr & Hr3 & Hr1).
    set (r := round_half_even (m * 3) 1) in *.
    destruct HKc as [[_ HK]|[[_ HK]|[_ HK]]].
    + rewrite HK. Z.div_mod_to_equations. lia.
    + rewrite HK. Z.div_mod_to_equations. lia.
    + rewrite Z.div_small by nia. lia.
  - (* two bits are rounded away *)
    assert (Hd : digits (m * 3) = prec + 2).
    { apply digits_eq; unfold prec; [lia|]. simpl. lia. }
    subst i. rewrite (@mul3_digits m e 2), floor_neg by (unfold emin; lia).
    rewrite pow_split by (unfold prec; lia). unfold prec.
    change (2 ^ (53 - 2)) with 2251799813685248.
    set (K := 2 ^ (- e - 53)) in *.
    destruct (@round2_bounds (m * 3) ltac:(lia)) as (Hr1 & Hr2 & Hr3).
    set (r := round_half_even (m * 3) 2) in *.
    destruct HKc as [[_ HK]|[[_ HK]|[_ HK]]].
    + rewrite HK. Z.div_mod_to_equations. lia.
    + rewrite HK. Z.div_mod_to_equations. lia.
    + rewrite Z.div_small by nia. lia.
Qed.

Lemma value_neg (m e : Z) : e < 0 -> value (mk m e) = m # Z.to_pos (2 ^ (- e)).
Proof.
  intros H. unfold value; simpl. destruct (Z.leb_spec 0 e); [lia|reflexivity].
Qed.

(** Comparing [3 * x] with [1 - 2^-54] and [2 - 2^-53], on integers. *)
Lemma third_bounds (m e : Z) :
  e < 0 ->
  ((3 * value (mk m e) < 1 - (1 # 2 ^ 54))%Q
     <-> 3 * m * 2 ^ 54 < (2 ^ 54 - 1) * 2 ^ (- e))
  /\ ((1 - (1 # 2 ^ 54) <= 3 * value (mk m e))%Q
     <-> (2 ^ 54 - 1) * 2 ^ (- e) <= 3 * m * 2 ^ 54)
  /\ ((3 * value (mk m e) < 2 - (1 # 2 ^ 53))%Q
     <-> 3 * m * 2 ^ 53 < (2 ^ 54 - 1) * 2 ^ (- e))
  /\ ((2 - (1 # 2 ^ 53) <= 3 * value (mk m e))%Q
     <-> (2 ^ 54 - 1) * 2 ^ (- e) <= 3 * m * 2 ^ 53).
Proof.
  intros He. rewrite value_neg by assumption.
  assert (0 < 2 ^ (- e)) by (apply Z.pow_pos_nonneg; lia).
  unfold Qlt, Qle, Qminus, Qplus, Qmult, Qopp; cbn [Qnum Qden].
  rewrite ?Pos2Z.inj_mul, ?Z2Pos.id by assumption.
  change (Z.pos (2 ^ 54)) with 18014398509481984.
  change (Z.pos (2 ^ 53)) with 9007199254740992.
  change (2 ^ 54) with 18014398509481984.
  change (2 ^ 53) with 9007199254740992.
  set (K := 2 ^ (- e)) in *. repeat split; intros; nia.
Qed.

(** A number of the unit interval lies in [0, 1). *)
Lemma unit_interval_value (x : t) :
  unit_interval x -> (0 <= value x < 1)%Q.
Proof.
  destruct x as [m e]. intros [Hm He]. simpl in Hm, He.
  unfold prec, emin in *.
  rewrite value_neg by lia.
  assert (2 ^ 53 <= 2 ^ (- e)) by (apply Z.pow_le_mono_r; lia).
  unfold Qlt, Qle; cbn [Qnum Qden].
  rewrite Z2Pos.id by lia. lia.
Qed.

(** [mul] against the multiplication of the Standard Library's binary64
    format: an exact product, a tie that rounds up to 1, two bits rounded
    away at the top of the range, a subnormal number, and zero. *)
Example mul_agrees_with_binary64 :
  forall x,
    In x [ Samples.eighth; Samples.half; Samples.three_quarters;
           Samples.below_third; mk (2 ^ 53 - 1) (-53); mk (2 ^ 53 - 1) (-54);
           mk 6004799503160662 (-54); mk 5 (-1074); mk (2 ^ 52 - 1) (-1074);
           mk 4503599627370497 (-1000); mk 0 (-53) ] ->
    SFmul 53 1024 (to_spec x) (to_spec (of_nat 3)) = to_spec (mul x (of_nat 3)).
Proof.
  intros x H. simpl in H.
  repeat (destruct H as [<-|H]; [vm_compute; reflexivity|]). destruct H.
Qed.

(** 0.3333333333333333 * 3 is 1 in binary64. *)
Example below_third_times_three :
  mul Samples.below_third (of_nat 3) = mk 9007199254740992 (-53)
  /\ floor (mul Samples.below_third (of_nat 3)) = 1.
Proof. split; reflexivity. Qed.

(** The largest number below 1, times 3, stays below 3. *)
Example largest_draw_times_three :
  mul (mk (2 ^ 53 - 1) (-53)) (of_nat 3) = mk 6755399441055743 (-51)
  /\ floor (mul (mk (2 ^ 53 - 1) (-53)) (of_nat 3)) = 2.
Proof. split; reflexivity. Qed.

End DoubleFacts.

(** ** The fallback generator *)

Import JsStringFacts DoubleFacts.

Section Fallback.
Variable u : Double.t.
Variable theme : jsstring.

Lemma fallbackHaikus_length : length (fallbackHaikus theme) = 3%nat.
Proof. reflexivity. Qed.

Lemma generateFallbackHaiku_run (s : state) :
  generateFallbackHaiku u theme s =
    (Normal tt,
     mkState (input s) (array_get (fallbackHaikus theme) (randomIndex u theme))
             (isGenerating s) (showInfo s) (error s),
     [MathRandom u; SetHaiku (array_get (fallbackHaikus theme) (randomIndex u theme))]).
Proof. reflexivity. Qed.

Hypothesis Hu : Double.unit_interval u.

Lemma randomIndex_range : (0 <= randomIndex u theme <= 2)%Z.
Proof.
  unfold randomIndex. rewrite fallbackHaikus_length.
  destruct u as [m e]. destruct Hu as [Hm He]. simpl in Hm, He.
  apply (index3_spec m e Hm He).
Qed.

Lemma randomHaiku_selected :
  exists t, nth_error fallbackTemplates (Z.to_nat (randomIndex u theme)) = Some t
            /\ array_get (fallbackHaikus theme) (randomIndex u theme) = Some (fill theme t).
Proof.
  pose proof randomIndex_range as H. unfold array_get, fallbackHaikus.
  destruct (Z.ltb_spec (randomIndex u theme) 0); [lia|].
  rewrite nth_error_map.
  assert (Z.to_nat (randomIndex u theme) < length fallbackTemplates)%nat as Hlt
    by (change (length fallbackTemplates) with 3%nat; lia).
  apply nth_error_Some in Hlt.
  destruct (nth_error fallbackTemplates (Z.to_nat (randomIndex u theme))) as [t|] eqn:E;
    [|congruence].
  exists t. split; reflexivity.
Qed.

End Fallback.

Section Handlers.
Variable env : Env.
Variable remote : jsstring -> jsstring -> jsstring -> remote_outcome.
Variable u : Double.t.

Lemma handleGenerate_blank (s : state) :
  JsString.trim (input s) = [] ->
  handleGenerate env remote u s =
    (Normal tt,
     mkState (input s) (haiku s) (isGenerating s) (showInfo s) validation_message,
     [SetError validation_message]).
Proof.
  intros H. unfold handleGenerate. rewrite H. reflexivity.
Qed.

Lemma handleGenerate_dispatch (s : state) :
  JsString.trim (input s) <> [] ->
  handleGenerate env remote u s =
    if maybe_truthy (apiKey (API_CONFIG env))
    then generateHaikuFromAPI env remote u (JsString.trim (input s)) s
    else (setIsGenerating true ;; emit (SetTimeout 1500) ;;
          generateFallbackHaiku u (JsString.trim (input s)) ;;
          setIsGenerating false)%js s.
Proof.
  intros H. unfold handleGenerate.
  apply truthy_true in H. rewrite H. simpl negb. cbv iota.
  now destruct (maybe_truthy (apiKey (API_CONFIG env))).
Qed.

Lemma handleGenerate_no_key (s : state) :
  JsString.trim (input s) <> [] ->
  maybe_truthy (VITE_GEMINI_API_KEY env) = false ->
  let theme := JsString.trim (input s) in
  let h := array_get (fallbackHaikus theme) (randomIndex u theme) in
  handleGenerate env remote u s =
    (Normal tt,
     mkState (input s) h false (showInfo s) (error s),
     [SetIsGenerating true; SetTimeout 1500; MathRandom u; SetHaiku h;
      SetIsGenerating false]).
Proof.
  intros H Hk theme h. rewrite handleGenerate_dispatch by assumption.
  change (apiKey (API_CONFIG env)) with (VITE_GEMINI_API_KEY env).
  rewrite Hk. reflexivity.
Qed.

Lemma generateHaikuFromAPI_success (theme key r : jsstring) (s : state) :
  VITE_GEMINI_API_KEY env = Some key -> key <> [] ->
  remote key (model (API_CONFIG env)) (fill theme promptTemplate) = Responds r ->
  generateHaikuFromAPI env remote u theme s =
    (Normal tt,
     mkState (input s) (Some (JsString.trim r)) false (showInfo s) [],
     [SetError []; SetIsGenerating true;
      GenerateContent key (model (API_CONFIG env)) (fill theme promptTemplate);
      SetHaiku (Some (JsString.trim r)); SetIsGenerating false]).
Proof.
  intros Hk Hne Hr. apply truthy_true in Hne.
  unfold generateHaikuFromAPI, generateContent.
  change (apiKey (API_CONFIG env)) with (VITE_GEMINI_API_KEY env).
  rewrite Hk, Hne.
  unfold try_finally, try_catch, bind, ret, emit, setError, setIsGenerating, setHaiku.
  cbv beta iota. rewrite Hr. reflexivity.
Qed.

Lemma generateHaikuFromAPI_failure (theme key msg : jsstring) (s : state) :
  VITE_GEMINI_API_KEY env = Some key -> key <> [] ->
  remote key (model (API_CONFIG env)) (fill theme promptTemplate) = Fails msg ->
  let h := array_get (fallbackHaikus theme) (randomIndex u theme) in
  generateHaikuFromAPI env remote u theme s =
    (Normal tt,
     mkState (input s) h false (showInfo s) (shown_error msg),
     [SetError []; SetIsGenerating true;
      GenerateContent key (model (API_CONFIG env)) (fill theme promptTemplate);
      ConsoleError (lit "Error generating haiku:") (RemoteFailure msg);
      catch_note msg; MathRandom u; SetHaiku h; SetIsGenerating false]).
Proof.
  intros Hk Hne Hr h. apply truthy_true in Hne.
  unfold generateHaikuFromAPI, generateContent.
  change (apiKey (API_CONFIG env)) with (VITE_GEMINI_API_KEY env).
  rewrite Hk, Hne.
  unfold try_finally, try_catch, bind, ret, throw, emit, setError, setIsGenerating,
    setHaiku, generateFallbackHaiku.
  cbv beta iota. rewrite Hr. cbv beta iota.
  unfold shown_error, catch_note, rate_limited, exn_message.
  destruct (JsString.includes msg (lit "429") || JsString.includes msg (lit "rate limit"));
    reflexivity.
Qed.

Lemma generateHaikuFromAPI_missing_key (theme : jsstring) (s : state) :
  maybe_truthy (VITE_GEMINI_API_KEY env) = false ->
  let h := array_get (fallbackHaikus theme) (randomIndex u theme) in
  generateHaikuFromAPI env remote u theme s =
    (Normal tt,
     mkState (input s) h false (showInfo s) missing_key_message,
     [SetError []; SetIsGenerating true;
      ConsoleError (lit "Error generating haiku:") MissingApiKey;
      SetError missing_key_message; MathRandom u; SetHaiku h;
      SetIsGenerating false]).
Proof.
  intros Hk h.
  unfold generateHaikuFromAPI.
  change (apiKey (API_CONFIG env)) with (VITE_GEMINI_API_KEY env).
  destruct (VITE_GEMINI_API_KEY env) as [k|]; simpl in Hk; [rewrite Hk|]; reflexivity.
Qed.

End Handlers.

(** ** Templates *)

Lemma fill_app (theme : jsstring) (t1 t2 : template) :
  fill theme (t1 ++ t2) = fill theme t1 ++ fill theme t2.
Proof. apply flat_map_app. Qed.

(** A template with a hole yields a string that contains the theme. *)
Lemma fill_substring (theme : jsstring) (t : template) :
  In Theme t -> JsString.substring_of theme (fill theme t).
Proof.
  intros H. apply in_split in H as (t1 & t2 & ->).
  exists (fill theme t1), (fill theme t2).
  rewrite fill_app. reflexivity.
Qed.

Lemma count_app (c : N) (a b : jsstring) :
  JsString.count c (a ++ b) = (JsString.count c a + JsString.count c b)%nat.
Proof. apply count_occ_app. Qed.

(** Every line break of a filled template with no line break in its
    chunks comes from the theme. *)
Lemma count_fill (c : N) (theme : jsstring) (t : template) :
  JsString.count c (fill theme t) =
  (JsString.count c (fill [] t) + holes t * JsString.count c theme)%nat.
Proof.
  induction t as [|g t IH]; [reflexivity|].
  change (fill theme (g :: t)) with (fill_segment theme g ++ fill theme t).
  change (fill [] (g :: t)) with (fill_segment [] g ++ fill [] t).
  rewrite !count_app, IH. destruct g; simpl; unfold holes; simpl; lia.
Qed.

Lemma fallbackTemplates_holes (t : template) :
  In t fallbackTemplates -> holes t = 1%nat.
Proof.
  intros [<-|[<-|[<-|[]]]]; reflexivity.
Qed.

Lemma fallbackTemplates_lines (t : template) :
  In t fallbackTemplates -> JsString.count 10 (fill [] t) = 2%nat.
Proof.
  intros [<-|[<-|[<-|[]]]]; reflexivity.
Qed.

Lemma fallbackTemplates_shape (t : template) :
  In t fallbackTemplates ->
  exists pre post, forall theme, fill theme t = pre ++ theme ++ post.
Proof.
  intros [<-|[<-|[<-|[]]]].
  - eexists [], _. intros theme. unfold fill, flat_map, fill_segment.
    rewrite app_nil_r. reflexivity.
  - eexists _, _. intros theme. unfold fill, flat_map, fill_segment.
    rewrite app_nil_r. reflexivity.
  - eexists [], _. intros theme. unfold fill, flat_map, fill_segment.
    rewrite app_nil_r. reflexivity.
Qed.

Lemma holes_In (t : template) : holes t = 1%nat -> In Theme t.
Proof.
  induction t as [|g t IH]; [discriminate|].
  destruct g; [|now left]. intros H. right. apply IH. exact H.
Qed.

Lemma fallback_contains_theme (theme h : jsstring) :
  is_fallback_haiku theme h -> JsString.substring_of theme h.
Proof.
  intros (t & Ht & ->). apply fill_substring, holes_In, fallbackTemplates_holes, Ht.
Qed.

Lemma randomHaiku_fallback (u : Double.t) (theme : jsstring) :
  Double.unit_interval u ->
  exists h, array_get (fallbackHaikus theme) (randomIndex u theme) = Some h
            /\ is_fallback_haiku theme h.
Proof.
  intros Hu. destruct (randomHaiku_selected u theme Hu) as (t & Hn & Hg).
  exists (fill theme t). split; [exact Hg|].
  exists t. split; [|reflexivity]. eapply nth_error_In, Hn.
Qed.

Local Open Scope Z_scope.

(** Which third of the unit interval the draw falls in decides the index,
    up to the rounding of the product: the cuts are at [(1 - 2^-54) / 3]
    and [(2 - 2^-53) / 3]. *)
Lemma randomIndex_thirds (x : Double.t) (theme : jsstring) :
  Double.unit_interval x ->
  let i := randomIndex x theme in
  (i = 0 <-> (3 * Double.value x < 1 - (1 # 2 ^ 54))%Q)
  /\ (i = 1 <-> (1 - (1 # 2 ^ 54) <= 3 * Double.value x
                 /\ 3 * Double.value x < 2 - (1 # 2 ^ 53))%Q)
  /\ (i = 2 <-> (2 - (1 # 2 ^ 53) <= 3 * Double.value x)%Q).
Proof.
  intros Hx i. subst i. unfold randomIndex. rewrite fallbackHaikus_length.
  destruct x as [m e]. destruct Hx as [Hm He]. simpl in Hm, He.
  destruct (index3_spec m e Hm He) as (Hr & H0 & H2).
  assert (e < 0) as Hneg by (unfold Double.prec in He; lia).
  destruct (third_bounds m e Hneg) as (B0 & B1 & B2 & B3).
  set (i := Double.floor _) in *.
  rewrite B0, B1, B2, B3. 
  split; [exact H0|]. split; [|exact H2]. lia.
Qed.

(** * The claims *)

Import Samples.

Section Claims.
Variable env : Env.
Variable remote : jsstring -> jsstring -> jsstring -> remote_outcome.
Variable u : Double.t.

(** Claim C1.  For an input whose trim is not empty and a configured
    (non-empty) API key, when the remote call answers with the text [r],
    [handleGenerate] completes normally, the stored haiku is exactly
    [r.trim ()], and the error message is empty afterwards whatever it was
    before: the attempt itself clears it with [setError]. *)
Theorem api_success_stores_trimmed_response (s : state) (key r : jsstring) :
  JsString.trim (input s) <> [] ->
  VITE_GEMINI_API_KEY env = Some key -> key <> [] ->
  remote key (model (API_CONFIG env))
         (fill (JsString.trim (input s)) promptTemplate) = Responds r ->
  let run := handleGenerate env remote u s in
  outcome run = Normal tt
  /\ haiku (final_state run) = Some (JsString.trim r)
  /\ error (final_state run) = []
  /\ In (SetError []) (trace run).
Proof.
  intros Hin Hk Hne Hr run. subst run.
  rewrite handleGenerate_dispatch by assumption.
  change (apiKey (API_CONFIG env)) with (VITE_GEMINI_API_KEY env).
  rewrite Hk. simpl maybe_truthy. apply truthy_true in Hne as Ht. rewrite Ht.
  rewrite (generateHaikuFromAPI_success env remote u _ key r s Hk Hne Hr).
  repeat split. now left.
Qed.

(** Claim C3.  When the remote call fails with a message that contains
    "429" or "rate limit", the attempt stores a fallback haiku (one of the
    three templates filled with the theme) and the error message is empty
    afterwards: no [setError] of the attempt sets anything but the empty
    string. *)
Theorem rate_limit_failure_falls_back_silently (s : state) (key msg : jsstring) :
  JsString.trim (input s) <> [] ->
  VITE_GEMINI_API_KEY env = Some key -> key <> [] ->
  remote key (model (API_CONFIG env))
         (fill (JsString.trim (input s)) promptTemplate) = Fails msg ->
  JsString.substring_of (lit "429") msg \/ JsString.substring_of (lit "rate limit") msg ->
  Double.unit_interval u ->
  let run := handleGenerate env remote u s in
  outcome run = Normal tt
  /\ (exists h, haiku (final_state run) = Some h
                /\ is_fallback_haiku (JsString.trim (input s)) h)
  /\ error (final_state run) = []
  /\ (forall v, In (SetError v) (trace run) -> v = []).
Proof.
  intros Hin Hk Hne Hr Hsub Hu run. subst run.
  rewrite handleGenerate_dispatch by assumption.
  change (apiKey (API_CONFIG env)) with (VITE_GEMINI_API_KEY env).
  rewrite Hk. simpl maybe_truthy. apply truthy_true in Hne as Ht. rewrite Ht.
  rewrite (generateHaikuFromAPI_failure env remote u _ key msg s Hk Hne Hr).
  assert (Hrl : rate_limited msg = true).
  { unfold rate_limited. apply orb_true_iff.
    destruct Hsub as [H|H]; [left|right]; now apply includes_spec. }
  unfold shown_error, catch_note. rewrite Hrl.
  unfold outcome, final_state, trace; simpl fst; simpl snd.
  split; [reflexivity|]. split; [|split; [reflexivity|]].
  - simpl haiku. now apply randomHaiku_fallback.
  - intros v Hv. simpl in Hv.
    repeat (destruct Hv as [Hv|Hv]; [try discriminate; injection Hv; congruence|]).
    destruct Hv.
Qed.

(** Claim C4.  When the remote call fails with a message that contains
    neither "429" nor "rate limit", the attempt sets the error message to
    that message, or to "Failed to generate haiku. Please try again." when
    the message is empty, and also stores a fallback haiku: the error and
    the haiku are both populated. *)
Theorem generic_failure_shows_error_and_fallback (s : state) (key msg : jsstring) :
  JsString.trim (input s) <> [] ->
  VITE_GEMINI_API_KEY env = Some key -> key <> [] ->
  remote key (model (API_CONFIG env))
         (fill (JsString.trim (input s)) promptTemplate) = Fails msg ->
  ~ JsString.substring_of (lit "429") msg ->
  ~ JsString.substring_of (lit "rate limit") msg ->
  Double.unit_interval u ->
  let run := handleGenerate env remote u s in
  outcome run = Normal tt
  /\ (msg <> [] -> error (final_state run) = msg)
  /\ (msg = [] ->
      error (final_state run) = lit "Failed to generate haiku. Please try again.")
  /\ error (final_state run) <> []
  /\ (exists h, haiku (final_state run) = Some h
                /\ is_fallback_haiku (JsString.trim (input s)) h).
Proof.
  intros Hin Hk Hne Hr H429 Hrate Hu run. subst run.
  rewrite handleGenerate_dispatch by assumption.
  change (apiKey (API_CONFIG env)) with (VITE_GEMINI_API_KEY env).
  rewrite Hk. simpl maybe_truthy. apply truthy_true in Hne as Ht. rewrite Ht.
  rewrite (generateHaikuFromAPI_failure env remote u _ key msg s Hk Hne Hr).
  assert (Hrl : rate_limited msg = false).
  { unfold rate_limited. apply orb_false_iff. split; now apply includes_false. }
  unfold shown_error. rewrite Hrl.
  unfold outcome, final_state; simpl fst; simpl snd. simpl error. simpl haiku.
  split; [reflexivity|]. repeat split.
  - intros Hm. now apply or_else_nonempty.
  - intros ->. reflexivity.
  - destruct msg; [discriminate|discriminate].
  - now apply randomHaiku_fallback.
Qed.

(** Claim C5.  For an input whose trim is empty, [handleGenerate] sets the
    error message to "Please enter a word or theme for your haiku." and
    does nothing else: its whole trace is that one [setError], so there is
    no remote call, no delay and no fallback draw, and the haiku, the
    in-progress flag, the input and the info flag are unchanged. *)
Theorem blank_input_only_reports_validation_error (s : state) :
  JsString.trim (input s) = [] ->
  let run := handleGenerate env remote u s in
  outcome run = Normal tt
  /\ error (final_state run) = lit "Please enter a word or theme for your haiku."
  /\ trace run = [SetError (lit "Please enter a word or theme for your haiku.")]
  /\ haiku (final_state run) = haiku s
  /\ isGenerating (final_state run) = isGenerating s
  /\ input (final_state run) = input s
  /\ showInfo (final_state run) = showInfo s.
Proof.
  intros H run. subst run. rewrite handleGenerate_blank by assumption.
  repeat split.
Qed.

(** Claim C6.  For an input whose trim is not empty, whatever the
    environment, the remote service and the draw are (key or no key,
    success, rate-limit failure, any other failure), [handleGenerate]
    completes normally with the in-progress flag false, and the last thing
    it does is [setIsGenerating false]. *)
Theorem in_progress_flag_cleared_on_every_path (s : state) :
  JsString.trim (input s) <> [] ->
  let run := handleGenerate env remote u s in
  outcome run = Normal tt
  /\ isGenerating (final_state run) = false
  /\ exists before, trace run = before ++ [SetIsGenerating false].
Proof.
  intros Hin run. subst run.
  destruct (maybe_truthy (VITE_GEMINI_API_KEY env)) eqn:Hkey.
  - rewrite handleGenerate_dispatch by assumption.
    change (apiKey (API_CONFIG env)) with (VITE_GEMINI_API_KEY env). rewrite Hkey.
    destruct (VITE_GEMINI_API_KEY env) as [key|] eqn:Hk; [|discriminate].
    simpl in Hkey. apply truthy_true in Hkey.
    destruct (remote key (model (API_CONFIG env))
                (fill (JsString.trim (input s)) promptTemplate)) as [r|msg] eqn:Hr.
    + rewrite (generateHaikuFromAPI_success env remote u _ key r s Hk Hkey Hr).
      repeat split. eexists [_; _; _; _]. reflexivity.
    + rewrite (generateHaikuFromAPI_failure env remote u _ key msg s Hk Hkey Hr).
      repeat split. eexists [_; _; _; _; _; _; _]. reflexivity.
  - rewrite handleGenerate_no_key by assumption.
    repeat split. eexists [_; _; _; _]. reflexivity.
Qed.

(** Claim C9.  [handleGenerate] never reaches the [throw] of
    [generateHaikuFromAPI] for a missing API key: it always completes
    normally, the [catch] block never receives that error, and every error
    message it sets is empty, the validation message, or the message (or the
    generic default) of a failed remote call.  The branch itself exists:
    see [generateHaikuFromAPI_missing_key]. *)
Theorem missing_key_branch_unreachable_from_handleGenerate (s : state) :
  let run := handleGenerate env remote u s in
  outcome run = Normal tt
  /\ (forall label, ~ In (ConsoleError label MissingApiKey) (trace run))
  /\ (forall v, In (SetError v) (trace run) ->
        v = [] \/ v = validation_message
        \/ exists key msg,
             VITE_GEMINI_API_KEY env = Some key
             /\ remote key (model (API_CONFIG env))
                  (fill (JsString.trim (input s)) promptTemplate) = Fails msg
             /\ v = JsString.or_else msg generic_failure_message).
Proof.
  intros run. subst run.
  destruct (JsString.trim (input s)) as [|c theme] eqn:Hin.
  { rewrite handleGenerate_blank by assumption. split; [reflexivity|]. split.
    - intros label [H|[]]. discriminate.
    - intros v [H|[]]. injection H as <-. now right; left. }
  assert (Hne : JsString.trim (input s) <> []) by (rewrite Hin; discriminate).
  rewrite <- Hin.
  destruct (maybe_truthy (VITE_GEMINI_API_KEY env)) eqn:Hkey.
  - rewrite handleGenerate_dispatch by assumption.
    change (apiKey (API_CONFIG env)) with (VITE_GEMINI_API_KEY env). rewrite Hkey.
    destruct (VITE_GEMINI_API_KEY env) as [key|] eqn:Hk; [|discriminate].
    simpl in Hkey. apply truthy_true in Hkey.
    destruct (remote key (model (API_CONFIG env))
                (fill (JsString.trim (input s)) promptTemplate)) as [r|msg] eqn:Hr.
    + rewrite (generateHaikuFromAPI_success env remote u _ key r s Hk Hkey Hr).
      split; [reflexivity|]. split.
      * intros label H. simpl in H.
        repeat (destruct H as [H|H]; [discriminate|]). destruct H.
      * intros v H. simpl in H.
        repeat (destruct H as [H|H]; [try discriminate; injection H as <-; now left|]).
        destruct H.
    + rewrite (generateHaikuFromAPI_failure env remote u _ key msg s Hk Hkey Hr).
      split; [reflexivity|]. unfold catch_note. split.
      * intros label H. simpl in H.
        destruct (rate_limited msg);
        repeat (destruct H as [H|H]; [discriminate|]); destruct H.
      * intros v H. simpl in H.
        destruct (rate_limited msg);
        repeat (destruct H as [H|H];
                [try discriminate; injection H as <-;
                 (now left) || (right; right; exists key, msg; now repeat split)|]);
        destruct H.
  - rewrite handleGenerate_no_key by assumption.
    split; [reflexivity|]. split.
    + intros label H. simpl in H.
      repeat (destruct H as [H|H]; [discriminate|]). destruct H.
    + intros v H. simpl in H.
      repeat (destruct H as [H|H]; [discriminate|]). destruct H.
Qed.

End Claims.

(** Claim C7.  There are exactly three fixed fallback templates, pairwise
    distinct, each with exactly one hole for the theme, the theme being
    inserted between a fixed prefix and a fixed suffix.  For every theme
    and every draw of [Math.random ()], [generateFallbackHaiku] stores the
    template at index [Math.floor (draw * 3)] filled with the theme, which
    is one of the three strings of [fallbackHaikus theme].  The index is
    0, 1 or 2 according to the third of the unit interval the draw falls
    in, the cuts being at [(1 - 2^-54) / 3] and [(2 - 2^-53) / 3]: a draw
    that is uniform on the unit interval selects each template with
    probability 1/3, up to the rounding of the product. *)
Theorem fallback_selects_among_three_templates
    (u : Double.t) (theme : jsstring) (s : state) :
  Double.unit_interval u ->
  let i := randomIndex u theme in
  let run := generateFallbackHaiku u theme s in
  length fallbackTemplates = 3%nat
  /\ NoDup fallbackTemplates
  /\ (forall t, In t fallbackTemplates ->
        holes t = 1%nat
        /\ exists pre post, forall th, fill th t = pre ++ th ++ post)
  /\ (exists t, nth_error fallbackTemplates (Z.to_nat i) = Some t
                /\ haiku (final_state run) = Some (fill theme t))
  /\ (exists h, haiku (final_state run) = Some h /\ In h (fallbackHaikus theme))
  /\ (i = 0 <-> (3 * Double.value u < 1 - (1 # 2 ^ 54))%Q)
  /\ (i = 1 <-> (1 - (1 # 2 ^ 54) <= 3 * Double.value u
                 /\ 3 * Double.value u < 2 - (1 # 2 ^ 53))%Q)
  /\ (i = 2 <-> (2 - (1 # 2 ^ 53) <= 3 * Double.value u)%Q).
Proof.
  intros Hu i run.
  split; [reflexivity|]. split.
  { repeat constructor; simpl; intuition discriminate. }
  split.
  { intros t Ht. split; [now apply fallbackTemplates_holes|].
    now apply fallbackTemplates_shape. }
  destruct (randomHaiku_selected u theme Hu) as (t & Hn & Hg).
  subst run. rewrite generateFallbackHaiku_run. unfold final_state; cbn [fst snd haiku].
  fold i in Hn, Hg |- *. rewrite Hg.
  split; [now exists t|]. split.
  { exists (fill theme t). split; [reflexivity|].
    unfold fallbackHaikus. apply in_map. eapply nth_error_In, Hn. }
  exact (randomIndex_thirds u theme Hu).
Qed.

(** Claim C10.  For a theme without a line feed, each of the three
    fallback haikus, and so the haiku that [generateFallbackHaiku] stores,
    contains exactly two line feeds: it has three lines. *)
Theorem fallback_haiku_has_three_lines
    (u : Double.t) (theme : jsstring) (s : state) :
  Double.unit_interval u ->
  JsString.count 10 theme = 0%nat ->
  (forall h, In h (fallbackHaikus theme) -> JsString.count 10 h = 2%nat)
  /\ exists h, haiku (final_state (generateFallbackHaiku u theme s)) = Some h
               /\ JsString.count 10 h = 2%nat.
Proof.
  intros Hu Hnl.
  assert (Hall : forall h, In h (fallbackHaikus theme) -> JsString.count 10 h = 2%nat).
  { intros h Hh. unfold fallbackHaikus in Hh. apply in_map_iff in Hh as (t & <- & Ht).
    rewrite count_fill, Hnl, (fallbackTemplates_lines t Ht). lia. }
  split; [exact Hall|].
  destruct (randomHaiku_selected u theme Hu) as (t & Hn & Hg).
  rewrite generateFallbackHaiku_run. unfold final_state; cbn [fst snd haiku]. rewrite Hg.
  exists (fill theme t). split; [reflexivity|].
  apply Hall. unfold fallbackHaikus. apply in_map. eapply nth_error_In, Hn.
Qed.

(** Claim C8.  Clicking a sample word sets the input to that word and the
    error message to the empty string, leaves the haiku, the in-progress
    flag and the info flag as they were, and does nothing else: the trace
    is [setInput word] then [setError] with the empty string, with no
    generation attempt. *)
Theorem sample_click_sets_input_and_clears_error (word : jsstring) (s : state) :
  In word sampleWords ->
  let run := handleSampleClick word s in
  outcome run = Normal tt
  /\ input (final_state run) = word
  /\ error (final_state run) = []
  /\ haiku (final_state run) = haiku s
  /\ isGenerating (final_state run) = isGenerating s
  /\ showInfo (final_state run) = showInfo s
  /\ trace run = [SetInput word; SetError []].
Proof.
  intros _ run. repeat split.
Qed.

(** What the attempt without a key does, for every earlier state: the
    haiku is a fallback haiku that contains the theme, after the delay,
    and [error] is left as it was. *)
Lemma no_key_attempt (env : Env)
    (remote : jsstring -> jsstring -> jsstring -> remote_outcome)
    (u : Double.t) (s : state) :
  JsString.trim (input s) <> [] ->
  maybe_truthy (VITE_GEMINI_API_KEY env) = false ->
  Double.unit_interval u ->
  let run := handleGenerate env remote u s in
  (exists h, haiku (final_state run) = Some h
             /\ is_fallback_haiku (JsString.trim (input s)) h
             /\ JsString.substring_of (JsString.trim (input s)) h
             /\ trace run = [SetIsGenerating true; SetTimeout 1500; MathRandom u;
                             SetHaiku (Some h); SetIsGenerating false])
  /\ error (final_state run) = error s.
Proof.
  intros Hin Hk Hu run. subst run. rewrite handleGenerate_no_key by assumption.
  destruct (randomHaiku_fallback u (JsString.trim (input s)) Hu) as (h & Hg & Hf).
  rewrite Hg. split; [|reflexivity].
  exists h. repeat split; try assumption. now apply fallback_contains_theme.
Qed.

(** The state of that scenario is reached from the first render: Enter on
    the empty field runs [handleGenerate], which reports the validation
    error, and the field's [onChange], which is [setInput] alone, then
    stores what the user types. *)
Example moon_after_blank_reached :
  final_state
    (setInput (lit "moon")
       (final_state
          (handleKeyPress env_no_key remote_ok half (lit "Enter") initial_state)))
  = moon_after_blank.
Proof. reflexivity. Qed.

(** Claim C2, at a state the user reaches by pressing Enter on an empty
    field and then typing "moon": with no API key, the attempt produces a
    fallback haiku that contains "moon", but the validation message of the
    earlier attempt is still the error message afterwards. *)
Theorem no_key_attempt_keeps_stale_error :
  let run := handleGenerate env_no_key remote_ok half moon_after_blank in
  JsString.trim (input moon_after_blank) = lit "moon"
  /\ maybe_truthy (VITE_GEMINI_API_KEY env_no_key) = false
  /\ (exists h, haiku (final_state run) = Some h
                /\ JsString.substring_of (lit "moon") h)
  /\ error (final_state run) = lit "Please enter a word or theme for your haiku."
  /\ error (final_state run) <> [].
Proof.
  cbv zeta. split; [reflexivity|]. split; [reflexivity|]. split.
  - eexists. split; [vm_compute; reflexivity|].
    exists (lit "Dancing with "). eexists. vm_compute. reflexivity.
  - split; [reflexivity | vm_compute; discriminate].
Qed.

(** ** The claims at sample inputs *)

Lemma api_success_witness :
  let run := handleGenerate env_key remote_ok half typed_moon in
  outcome run = Normal tt
  /\ haiku (final_state run)
     = Some (JsString.trim (lit "  " ++ three_lines ++ JsString.nl))
  /\ error (final_state run) = []
  /\ In (SetError []) (trace run).
Proof.
  apply (api_success_stores_trimmed_response env_key remote_ok half typed_moon
           (lit "AIza-test-key") (lit "  " ++ three_lines ++ JsString.nl)).
  - vm_compute; discriminate.
  - reflexivity.
  - vm_compute; discriminate.
  - reflexivity.
Defined.

Lemma rate_limit_witness :
  let run := handleGenerate env_key remote_429 half typed_moon in
  outcome run = Normal tt
  /\ (exists h, haiku (final_state run) = Some h
                /\ is_fallback_haiku (JsString.trim (input typed_moon)) h)
  /\ error (final_state run) = []
  /\ (forall v, In (SetError v) (trace run) -> v = []).
Proof.
  apply (rate_limit_failure_falls_back_silently env_key remote_429 half typed_moon
           (lit "AIza-test-key")
           (lit "[429 Too Many Requests] Resource has been exhausted")).
  - vm_compute; discriminate.
  - reflexivity.
  - vm_compute; discriminate.
  - reflexivity.
  - left. exists (lit "["), (lit " Too Many Requests] Resource has been exhausted").
    reflexivity.
  - in_unit_interval.
Defined.

Lemma generic_failure_witness :
  let run := handleGenerate env_key remote_network half typed_moon in
  outcome run = Normal tt
  /\ (lit "Network error" <> [] -> error (final_state run) = lit "Network error")
  /\ (lit "Network error" = [] ->
      error (final_state run) = lit "Failed to generate haiku. Please try again.")
  /\ error (final_state run) <> []
  /\ (exists h, haiku (final_state run) = Some h
                /\ is_fallback_haiku (JsString.trim (input typed_moon)) h).
Proof.
  apply (generic_failure_shows_error_and_fallback env_key remote_network half
           typed_moon (lit "AIza-test-key") (lit "Network error")).
  - vm_compute; discriminate.
  - reflexivity.
  - vm_compute; discriminate.
  - reflexivity.
  - apply includes_false. vm_compute. reflexivity.
  - apply includes_false. vm_compute. reflexivity.
  - in_unit_interval.
Defined.

Lemma blank_input_witness :
  let run := handleGenerate env_key remote_ok half blank in
  outcome run = Normal tt
  /\ error (final_state run) = lit "Please enter a word or theme for your haiku."
  /\ trace run = [SetError (lit "Please enter a word or theme for your haiku.")]
  /\ haiku (final_state run) = haiku blank
  /\ isGenerating (final_state run) = isGenerating blank
  /\ input (final_state run) = input blank
  /\ showInfo (final_state run) = showInfo blank.
Proof.
  apply (blank_input_only_reports_validation_error env_key remote_ok half blank).
  vm_compute. reflexivity.
Defined.

Lemma in_progress_flag_witness :
  let run := handleGenerate env_key remote_network three_quarters typed_moon in
  outcome run = Normal tt
  /\ isGenerating (final_state run) = false
  /\ exists before, trace run = before ++ [SetIsGenerating false].
Proof.
  apply (in_progress_flag_cleared_on_every_path env_key remote_network
           three_quarters typed_moon).
  vm_compute; discriminate.
Defined.

Lemma fallback_selection_witness :
  let i := randomIndex below_third (lit "moon") in
  let run := generateFallbackHaiku below_third (lit "moon") typed_moon in
  length fallbackTemplates = 3%nat
  /\ NoDup fallbackTemplates
  /\ (forall t, In t fallbackTemplates ->
        holes t = 1%nat
        /\ exists pre post, forall th, fill th t = pre ++ th ++ post)
  /\ (exists t, nth_error fallbackTemplates (Z.to_nat i) = Some t
                /\ haiku (final_state run) = Some (fill (lit "moon") t))
  /\ (exists h, haiku (final_state run) = Some h
                /\ In h (fallbackHaikus (lit "moon")))
  /\ (i = 0 <-> (3 * Double.value below_third < 1 - (1 # 2 ^ 54))%Q)
  /\ (i = 1 <-> (1 - (1 # 2 ^ 54) <= 3 * Double.value below_third
                 /\ 3 * Double.value below_third < 2 - (1 # 2 ^ 53))%Q)
  /\ (i = 2 <-> (2 - (1 # 2 ^ 53) <= 3 * Double.value below_third)%Q).
Proof.
  apply (fallback_selects_among_three_templates below_third (lit "moon") typed_moon).
  in_unit_interval.
Defined.

Lemma three_lines_witness :
  (forall h, In h (fallbackHaikus (lit "moon")) -> JsString.count 10 h = 2%nat)
  /\ exists h,
       haiku (final_state (generateFallbackHaiku eighth (lit "moon") typed_moon))
       = Some h
       /\ JsString.count 10 h = 2%nat.
Proof.
  apply (fallback_haiku_has_three_lines eighth (lit "moon") typed_moon).
  - in_unit_interval.
  - reflexivity.
Defined.

Lemma sample_click_witness :
  let run := handleSampleClick (lit "ocean") typed_moon in
  outcome run = Normal tt
  /\ input (final_state run) = lit "ocean"
  /\ error (final_state run) = []
  /\ haiku (final_state run) = haiku typed_moon
  /\ isGenerating (final_state run) = isGenerating typed_moon
  /\ showInfo (final_state run) = showInfo typed_moon
  /\ trace run = [SetInput (lit "ocean"); SetError []].
Proof.
  apply (sample_click_sets_input_and_clears_error (lit "ocean") typed_moon).
  right; left. reflexivity.
Defined.

Lemma missing_key_branch_witness :
  let run := handleGenerate env_no_key remote_network half typed_moon in
  outcome run = Normal tt
  /\ (forall label, ~ In (ConsoleError label MissingApiKey) (trace run))
  /\ (forall v, In (SetError v) (trace run) ->
        v = [] \/ v = validation_message
        \/ exists key msg,
             VITE_GEMINI_API_KEY env_no_key = Some key
             /\ remote_network key (model (API_CONFIG env_no_key))
                  (fill (JsString.trim (input typed_moon)) promptTemplate) = Fails msg
             /\ v = JsString.or_else msg generic_failure_message).
Proof.
  exact (missing_key_branch_unreachable_from_handleGenerate
           env_no_key remote_network half typed_moon).
Defined.

(** ** The examples of the testable properties, run *)

Example success_run :
  let run := handleGenerate env_key (fun _ _ _ => Responds three_lines) half typed_moon in
  final_state run = mkState (lit " moon ") (Some three_lines) false false []
  /\ trace run =
       [SetError []; SetIsGenerating true;
        GenerateContent (lit "AIza-test-key") (lit "gemini-2.5-flash")
          (fill (lit "moon") promptTemplate);
        SetHaiku (Some three_lines); SetIsGenerating false].
Proof. split; reflexivity. Qed.

Example padded_success_run :
  final_state (handleGenerate env_key remote_ok half typed_moon)
  = mkState (lit " moon ") (Some three_lines) false false [].
Proof. reflexivity. Qed.

Example rate_limit_run :
  let run := handleGenerate env_key remote_429 half typed_moon in
  final_state run = mkState (lit " moon ") (Some dancing_with_moon) false false []
  /\ In (ConsoleLog (lit "Using fallback generation due to rate limit")) (trace run).
Proof. split; [reflexivity | vm_compute; tauto]. Qed.

Example network_error_run :
  final_state (handleGenerate env_key remote_network half typed_moon)
  = mkState (lit " moon ") (Some dancing_with_moon) false false (lit "Network error").
Proof. reflexivity. Qed.

Example no_message_run :
  final_state (handleGenerate env_key remote_no_message half typed_moon)
  = mkState (lit " moon ") (Some dancing_with_moon) false false
            (lit "Failed to generate haiku. Please try again.").
Proof. reflexivity. Qed.

Example no_key_run :
  let run := handleGenerate env_no_key remote_ok half typed_moon in
  final_state run
  = mkState (lit " moon ") (Some dancing_with_moon) false false (lit "Network error")
  /\ trace run =
       [SetIsGenerating true; SetTimeout 1500; MathRandom half;
        SetHaiku (Some dancing_with_moon); SetIsGenerating false].
Proof. split; reflexivity. Qed.

Example unicode_blank_run :
  final_state (handleGenerate env_key remote_ok half unicode_blank)
  = mkState [12288; 160; 9; 10]%N (Some []) false false validation_message.
Proof. reflexivity. Qed.

Example enter_key_run :
  handleKeyPress env_key remote_ok half (lit "Enter") typed_moon
  = handleGenerate env_key remote_ok half typed_moon
  /\ handleKeyPress env_key remote_ok half (lit "a") typed_moon
     = (Normal tt, typed_moon, []).
Proof. split; reflexivity. Qed.

(** The three draws select the three templates. *)
Example every_template_is_drawn :
  randomIndex eighth (lit "moon") = 0
  /\ randomIndex half (lit "moon") = 1
  /\ randomIndex three_quarters (lit "moon") = 2.
Proof. repeat split. Qed.

(** Called on its own without a key, [generateHaikuFromAPI] does take its
    missing-key branch. *)
Example direct_call_without_key :
  let run := generateHaikuFromAPI env_no_key remote_ok half (lit "moon") typed_moon in
  error (final_state run) = missing_key_message
  /\ In (ConsoleError (lit "Error generating haiku:") MissingApiKey) (trace run).
Proof. split; [reflexivity | vm_compute; tauto]. Qed.

(** * Further properties of the component *)

(** ** More on strings *)

Module JsStringMore.
Import JsString.


Lemma trimStart_spec (s : t) :
  exists pre, s = pre ++ trimStart s
              /\ forallb is_white_space pre = true
              /\ starts_clean (trimStart s).
Proof.
  induction s as [|c s (pre & E & Hp & Hc)]; simpl.
  - exists []. repeat split.
  - destruct (is_white_space c) eqn:W.
    + exists (c :: pre). simpl. rewrite W, Hp. repeat split; [now f_equal | assumption].
    + exists []. simpl. repeat split. exact W.
Qed.

Lemma trimStart_clean (s : t) : starts_clean s -> trimStart s = s.
Proof. destruct s as [|c s]; simpl; [reflexivity|]. now intros ->. Qed.

Lemma trimStart_app_clean (l : t) (x : N) :
  is_white_space x = false -> trimStart (l ++ [x]) = trimStart l ++ [x].
Proof.
  intros W. induction l as [|c l IH]; simpl.
  - now rewrite W.
  - destruct (is_white_space c); [exact IH | reflexivity].
Qed.

Lemma trimEnd_spec (s : t) :
  exists post, s = trimEnd s ++ post
               /\ forallb is_white_space post = true
               /\ starts_clean (rev (trimEnd s)).
Proof.
  unfold trimEnd. destruct (trimStart_spec (rev s)) as (pre & E & Hp & Hc).
  exists (rev pre). rewrite rev_involutive. repeat split.
  - apply (f_equal (@rev N)) in E. rewrite rev_involutive, rev_app_distr in E. exact E.
  - now rewrite forallb_rev.
  - exact Hc.
Qed.

Lemma trimEnd_keeps_start (s : t) : starts_clean s -> starts_clean (trimEnd s).
Proof.
  unfold trimEnd. destruct s as [|c s]; simpl; [trivial|]. intros W.
  rewrite trimStart_app_clean by assumption.
  rewrite rev_app_distr. simpl. exact W.
Qed.

(** [trim] removes a run of white space at each end and nothing else, and
    what is left has no white space at either end. *)
Lemma trim_spec (s : t) :
  exists pre post,
    s = pre ++ trim s ++ post
    /\ forallb is_white_space pre = true
    /\ forallb is_white_space post = true
    /\ starts_clean (trim s)
    /\ starts_clean (rev (trim s)).
Proof.
  unfold trim.
  destruct (trimStart_spec s) as (pre & E1 & Hp & Hc).
  destruct (trimEnd_spec (trimStart s)) as (post & E2 & Hq & Hd).
  exists pre, post. repeat split; try assumption.
  - rewrite <- E2. exact E1.
  - now apply trimEnd_keeps_start.
Qed.

Lemma trimEnd_clean (s : t) : starts_clean (rev s) -> trimEnd s = s.
Proof.
  intros H. unfold trimEnd. rewrite trimStart_clean by assumption.
  apply rev_involutive.
Qed.

Lemma trim_idempotent (s : t) : trim (trim s) = trim s.
Proof.
  destruct (trim_spec s) as (pre & post & _ & _ & _ & Hc & Hd).
  unfold trim at 1. rewrite (trimStart_clean _ Hc). now apply trimEnd_clean.
Qed.

End JsStringMore.

Import JsStringMore.

(** ** The runs of [handleGenerate] *)

Section Runs.
Variable env : Env.
Variable remote : jsstring -> jsstring -> jsstring -> remote_outcome.
Variable u : Double.t.

Lemma handleGenerate_cases (s : state) : run_case env remote u s.
Proof.
  destruct (JsString.trim (input s)) as [|c th] eqn:Hin.
  { apply RunBlank; [assumption|]. now apply handleGenerate_blank. }
  assert (Hne : JsString.trim (input s) <> []) by (rewrite Hin; discriminate).
  clear Hin.
  destruct (maybe_truthy (VITE_GEMINI_API_KEY env)) eqn:Hkey.
  - destruct (VITE_GEMINI_API_KEY env) as [key|] eqn:Hk; [|discriminate].
    simpl in Hkey. apply truthy_true in Hkey.
    assert (Hd : handleGenerate env remote u s
                 = generateHaikuFromAPI env remote u (JsString.trim (input s)) s).
    { rewrite handleGenerate_dispatch by assumption.
      change (apiKey (API_CONFIG env)) with (VITE_GEMINI_API_KEY env). rewrite Hk.
      simpl. apply truthy_true in Hkey. now rewrite Hkey. }
    destruct (remote key (model (API_CONFIG env))
                (fill (JsString.trim (input s)) promptTemplate)) as [r|msg] eqn:Hr.
    + apply (RunSuccess env remote u s key r); try assumption.
      rewrite Hd. now apply generateHaikuFromAPI_success.
    + apply (RunFailure env remote u s key msg); try assumption.
      rewrite Hd. now apply generateHaikuFromAPI_failure.
  - apply RunNoKey; try assumption. now apply handleGenerate_no_key.
Qed.

End Runs.

Lemma model_nonempty (env : Env) : model (API_CONFIG env) <> [].
Proof.
  unfold API_CONFIG; cbn [model]. unfold maybe_or, JsString.or_else.
  destruct (VITE_MODEL env) as [[|c m]|]; cbn; discriminate.
Qed.

Lemma prompt_quotes_theme (theme : jsstring) :
  JsString.substring_of (JsString.dquote ++ theme ++ JsString.dquote)
    (fill theme promptTemplate).
Proof.
  eexists (lit "Write a traditional haiku (5-7-5 syllables) about "), _.
  unfold promptTemplate, fill, flat_map, fill_segment.
  rewrite app_nil_r, <- !app_assoc. reflexivity.
Qed.

Section Extras.
Variable env : Env.
Variable remote : jsstring -> jsstring -> jsstring -> remote_outcome.
Variable u : Double.t.


(** Property X2.  An attempt makes at most one remote call, and never
    repeats it after a failure.  It makes none when the trimmed input is
    empty or the key is missing or empty; otherwise it makes exactly one,
    with the configured key, a model name that is never empty, and the
    prompt built from the trimmed input, which holds the theme between
    double quotes. *)
Theorem at_most_one_remote_call (s : state) :
  let theme := JsString.trim (input s) in
  let run := handleGenerate env remote u s in
  ((theme = [] \/ maybe_truthy (VITE_GEMINI_API_KEY env) = false)
   /\ remote_calls (trace run) = [])
  \/ (exists key,
         theme <> [] /\ VITE_GEMINI_API_KEY env = Some key /\ key <> []
         /\ remote_calls (trace run)
            = [(key, model (API_CONFIG env), fill theme promptTemplate)]
         /\ model (API_CONFIG env) <> []
         /\ JsString.substring_of
              (JsString.dquote ++ theme ++ JsString.dquote)
              (fill theme promptTemplate)).
Proof.
  intros theme run. subst theme run.
  destruct (handleGenerate_cases env remote u s) as [Hb E|Hn Hk E|key r Hn Hk Hne Hr E|key msg Hn Hk Hne Hr E];
    cbv zeta in E; rewrite E.
  - left. split; [now left | reflexivity].
  - left. split; [now right | reflexivity].
  - right. exists key. repeat split; try assumption.
    + apply model_nonempty.
    + apply prompt_quotes_theme.
  - right. exists key. repeat split; try assumption.
    + unfold catch_note. destruct (rate_limited msg); reflexivity.
    + apply model_nonempty.
    + apply prompt_quotes_theme.
Qed.

(** Property X3.  [handleGenerate] never changes what the text field
    holds nor the info flag, and never calls [setInput], on any path. *)
Theorem handleGenerate_keeps_input_and_info (s : state) :
  let run := handleGenerate env remote u s in
  input (final_state run) = input s
  /\ showInfo (final_state run) = showInfo s
  /\ (forall v, ~ In (SetInput v) (trace run)).
Proof.
  intros run. subst run.
  destruct (handleGenerate_cases env remote u s) as [Hb E|Hn Hk E|key r Hn Hk Hne Hr E|key msg Hn Hk Hne Hr E];
    cbv zeta in E; rewrite E; (split; [reflexivity|]); (split; [reflexivity|]);
    intros v H; cbn [trace snd] in H; unfold catch_note in H;
    try destruct (rate_limited msg);
    repeat (destruct H as [H|H]; [discriminate|]); destruct H.
Qed.

(** Property X4.  When the Generate button is enabled, no attempt is in
    progress, the trimmed input is not empty, and [handleGenerate] starts
    an attempt: it raises the in-progress flag and stores a haiku, and its
    trace is not the lone validation [setError].  The validation error is
    so only reached through the Enter key. *)
Theorem enabled_button_starts_an_attempt (s : state) :
  generateDisabled s = false ->
  let run := handleGenerate env remote u s in
  isGenerating s = false
  /\ JsString.trim (input s) <> []
  /\ In (SetIsGenerating true) (trace run)
  /\ (exists v, In (SetHaiku v) (trace run))
  /\ trace run <> [SetError validation_message].
Proof.
  intros H run. subst run. unfold generateDisabled in H.
  apply orb_false_iff in H as [Hg Ht]. apply negb_false_iff, truthy_true in Ht.
  split; [assumption|]. split; [assumption|].
  destruct (handleGenerate_cases env remote u s) as [Hb E|Hn Hk E|key r Hn Hk Hne Hr E|key msg Hn Hk Hne Hr E];
    cbv zeta in E; rewrite E; cbn [trace snd].
  - contradiction.
  - split; [now left|]. split; [eexists; right; right; right; now left | discriminate].
  - split; [right; now left|]. split; [eexists; right; right; right; now left | discriminate].
  - split; [right; now left|].
    split; [eexists; do 6 right; now left | discriminate].
Qed.

End Extras.

(** A blank input disables the Generate button. *)
Lemma blank_input_disables_button (s : state) :
  JsString.trim (input s) = [] -> generateDisabled s = true.
Proof.
  intros H. unfold generateDisabled. rewrite H. apply orb_true_r.
Qed.

Lemma fallback_nonempty (theme h : jsstring) : is_fallback_haiku theme h -> h <> [].
Proof.
  intros (t & Ht & ->) E. apply (f_equal (@length N)) in E.
  destruct (fallbackTemplates_shape t Ht) as (pre & post & Hs).
  destruct Ht as [<-|[<-|[<-|[]]]];
    unfold fill, flat_map, fill_segment in E; rewrite ?length_app in E;
    cbn in E; lia.
Qed.

(** Property X7.  The three fallback haikus differ from each other
    whatever the theme is. *)
Theorem fallback_haikus_pairwise_distinct (theme : jsstring) :
  NoDup (fallbackHaikus theme).
Proof.
  unfold fallbackHaikus, fallbackTemplates. cbn [map].
  unfold fill, flat_map, fill_segment. rewrite !app_nil_r.
  repeat constructor; cbn [In]; intros H.
  - destruct H as [H|[H|[]]].
    + apply (f_equal (@length N)) in H. rewrite !length_app in H. cbn in H. lia.
    + apply app_inv_head in H. discriminate.
  - destruct H as [H|[]].
    apply (f_equal (@length N)) in H. rewrite !length_app in H. cbn in H. lia.
  - destruct H.
Qed.

(** Property X6.  For every theme, also the empty one, and every draw,
    [generateFallbackHaiku] stores a string that is not empty and contains
    the theme, so the haiku panel is rendered; it changes nothing but the
    haiku. *)
Theorem fallback_haiku_is_always_shown
    (u : Double.t) (theme : jsstring) (s : state) :
  Double.unit_interval u ->
  let run := generateFallbackHaiku u theme s in
  haikuShown (final_state run) = true
  /\ (exists h, haiku (final_state run) = Some h /\ h <> []
                /\ JsString.substring_of theme h)
  /\ input (final_state run) = input s
  /\ isGenerating (final_state run) = isGenerating s
  /\ showInfo (final_state run) = showInfo s
  /\ error (final_state run) = error s.
Proof.
  intros Hu run. subst run. rewrite generateFallbackHaiku_run.
  destruct (randomHaiku_fallback u theme Hu) as (h & Hg & Hf).
  rewrite Hg. unfold haikuShown, final_state; cbn [fst snd haiku maybe_truthy].
  pose proof (fallback_nonempty theme h Hf) as Hne.
  split; [now apply truthy_true|]. split; [|repeat split].
  exists h. repeat split; try assumption. now apply fallback_contains_theme.
Qed.

Section Extras2.
Variable env : Env.
Variable remote : jsstring -> jsstring -> jsstring -> remote_outcome.
Variable u : Double.t.

(** Property X5.  When the remote call succeeds with a text made of white
    space only, the stored haiku is the empty string: neither the haiku
    panel nor the error banner is rendered, and no fallback is drawn. *)
Theorem blank_response_shows_nothing (s : state) (key r : jsstring) :
  JsString.trim (input s) <> [] ->
  VITE_GEMINI_API_KEY env = Some key -> key <> [] ->
  remote key (model (API_CONFIG env))
         (fill (JsString.trim (input s)) promptTemplate) = Responds r ->
  forallb JsString.is_white_space r = true ->
  let run := handleGenerate env remote u s in
  haiku (final_state run) = Some []
  /\ haikuShown (final_state run) = false
  /\ errorShown (final_state run) = false
  /\ (forall d, ~ In (MathRandom d) (trace run)).
Proof.
  intros Hin Hk Hne Hr Hw run. subst run.
  rewrite handleGenerate_dispatch by assumption.
  change (apiKey (API_CONFIG env)) with (VITE_GEMINI_API_KEY env).
  rewrite Hk. simpl maybe_truthy. apply truthy_true in Hne as Ht. rewrite Ht.
  rewrite (generateHaikuFromAPI_success env remote u _ key r s Hk Hne Hr).
  apply trim_nil in Hw. rewrite Hw.
  repeat split. intros d H. cbn [trace snd] in H.
  repeat (destruct H as [H|H]; [discriminate|]). destruct H.
Qed.

(** Property X8.  After an attempt on an input whose trim is not empty,
    the text field, the sample buttons and the Generate button are all
    enabled again, on every path. *)
Theorem controls_enabled_after_attempt (s : state) :
  JsString.trim (input s) <> [] ->
  let s' := final_state (handleGenerate env remote u s) in
  inputDisabled s' = false
  /\ sampleDisabled s' = false
  /\ generateDisabled s' = false.
Proof.
  intros Hin s'. subst s'. unfold inputDisabled, sampleDisabled, generateDisabled.
  apply truthy_true in Hin as Ht.
  destruct (handleGenerate_cases env remote u s) as [Hb E|Hn Hk E|key r Hn Hk Hne Hr E|key msg Hn Hk Hne Hr E];
    cbv zeta in E; rewrite E; [contradiction| | |];
    unfold final_state; cbn [fst snd isGenerating input]; rewrite Ht; repeat split.
Qed.

(** Property X9.  With a key, the result of an attempt on an input whose
    trim is not empty does not depend on the haiku, the in-progress flag or
    the error message it starts from: whatever they were, the completion,
    the final state and the trace are the same. *)
Theorem api_attempt_overwrites_earlier_result
    (s : state) (h' : maybe_string) (g' : bool) (e' : jsstring) :
  JsString.trim (input s) <> [] ->
  maybe_truthy (VITE_GEMINI_API_KEY env) = true ->
  handleGenerate env remote u (mkState (input s) h' g' (showInfo s) e')
  = handleGenerate env remote u s.
Proof.
  intros Hin Hk.
  rewrite !handleGenerate_dispatch by assumption.
  change (apiKey (API_CONFIG env)) with (VITE_GEMINI_API_KEY env). rewrite Hk.
  cbn [input].
  destruct (VITE_GEMINI_API_KEY env) as [key|] eqn:Hkey; [|discriminate].
  simpl in Hk. apply truthy_true in Hk.
  destruct (remote key (model (API_CONFIG env))
              (fill (JsString.trim (input s)) promptTemplate)) as [r|msg] eqn:Hr.
  - rewrite (generateHaikuFromAPI_success env remote u _ key r s Hkey Hk Hr).
    now rewrite (generateHaikuFromAPI_success env remote u _ key r _ Hkey Hk Hr).
  - rewrite (generateHaikuFromAPI_failure env remote u _ key msg s Hkey Hk Hr).
    now rewrite (generateHaikuFromAPI_failure env remote u _ key msg _ Hkey Hk Hr).
Qed.

(** Property X10.  The array index of the fallback never goes out of range:
    if the haiku is a string before [handleGenerate], it is a string
    afterwards, never [undefined]. *)
Theorem haiku_stays_a_string (s : state) :
  Double.unit_interval u ->
  haiku s <> None ->
  haiku (final_state (handleGenerate env remote u s)) <> None.
Proof.
  intros Hu Hs.
  destruct (handleGenerate_cases env remote u s) as [Hb E|Hn Hk E|key r Hn Hk Hne Hr E|key msg Hn Hk Hne Hr E];
    cbv zeta in E; rewrite E; unfold final_state; cbn [fst snd haiku];
    try assumption; try discriminate;
    destruct (randomHaiku_fallback u (JsString.trim (input s)) Hu) as (h & Hg & _);
    rewrite Hg; discriminate.
Qed.

End Extras2.

Lemma sampleWords_trimmed (word : jsstring) :
  In word sampleWords ->
  JsString.trim word = word /\ word <> [] /\ JsString.count 10 word = 0%nat.
Proof.
  intros H. cbn [sampleWords In] in H.
  repeat (destruct H as [<-|H]; [repeat split; discriminate|]). destruct H.
Qed.

Section Extras3.
Variable env : Env.
Variable remote : jsstring -> jsstring -> jsstring -> remote_outcome.
Variable u : Double.t.

(** Property X11.  After a click on a sample word, the Generate button is
    enabled unless an attempt is in progress, and an attempt without a key
    ends with the word still in the field, no error message, and a
    fallback haiku of three lines that contains the word. *)
Theorem sample_then_generate_without_key (word : jsstring) (s : state) :
  In word sampleWords ->
  maybe_truthy (VITE_GEMINI_API_KEY env) = false ->
  Double.unit_interval u ->
  let clicked := final_state (handleSampleClick word s) in
  let run := handleGenerate env remote u clicked in
  generateDisabled clicked = isGenerating s
  /\ input (final_state run) = word
  /\ error (final_state run) = []
  /\ errorShown (final_state run) = false
  /\ exists h, haiku (final_state run) = Some h
               /\ is_fallback_haiku word h
               /\ JsString.substring_of word h
               /\ JsString.count 10 h = 2%nat.
Proof.
  intros Hw Hk Hu clicked run.
  destruct (sampleWords_trimmed word Hw) as (Ht & Hne & Hnl).
  assert (Hc : clicked = mkState word (haiku s) (isGenerating s) (showInfo s) [])
    by reflexivity.
  assert (Hin : JsString.trim (input clicked) <> []) by (rewrite Hc; cbn [input]; congruence).
  split.
  { unfold generateDisabled. rewrite Hc; cbn [input isGenerating]. rewrite Ht.
    apply truthy_true in Hne. rewrite Hne. apply orb_false_r. }
  subst run. rewrite handleGenerate_no_key by assumption.
  rewrite Hc; cbn [input showInfo error]. rewrite Ht.
  destruct (randomHaiku_fallback u word Hu) as (h & Hg & Hf).
  rewrite Hg. unfold final_state, errorShown; cbn [fst snd input error haiku].
  repeat split. exists h. repeat split; try assumption.
  - now apply fallback_contains_theme.
  - destruct Hf as (t & Hin' & ->).
    rewrite count_fill, Hnl, (fallbackTemplates_lines t Hin'). lia.
Qed.

(** Property X12.  Only the trim of the input matters: from two states
    that differ in the white space around the input only, [handleGenerate]
    completes the same way, with the same trace, haiku, error message and
    in-progress flag. *)
Theorem surrounding_white_space_is_ignored (s : state) (v : jsstring) :
  JsString.trim v = JsString.trim (input s) ->
  let run := handleGenerate env remote u s in
  let run' := handleGenerate env remote u (with_input s v) in
  outcome run' = outcome run
  /\ trace run' = trace run
  /\ haiku (final_state run') = haiku (final_state run)
  /\ error (final_state run') = error (final_state run)
  /\ isGenerating (final_state run') = isGenerating (final_state run)
  /\ input (final_state run') = v.
Proof.
  intros Hv run run'. subst run run'.
  assert (Hi : input (with_input s v) = v) by reflexivity.
  destruct (handleGenerate_cases env remote u s) as [Hb E|Hn Hk E|key r Hn Hk Hne Hr E|key msg Hn Hk Hne Hr E];
    cbv zeta in E; rewrite E.
  - rewrite handleGenerate_blank by (rewrite Hi; congruence). repeat split.
  - rewrite handleGenerate_no_key by (rewrite ?Hi; congruence).
    rewrite Hi, Hv. repeat split.
  - rewrite handleGenerate_dispatch by (rewrite Hi; congruence).
    change (apiKey (API_CONFIG env)) with (VITE_GEMINI_API_KEY env). rewrite Hk.
    simpl maybe_truthy. apply truthy_true in Hne as Ht. rewrite Ht, Hi, Hv.
    rewrite (generateHaikuFromAPI_success env remote u _ key r _ Hk Hne Hr).
    repeat split.
  - rewrite handleGenerate_dispatch by (rewrite Hi; congruence).
    change (apiKey (API_CONFIG env)) with (VITE_GEMINI_API_KEY env). rewrite Hk.
    simpl maybe_truthy. apply truthy_true in Hne as Ht. rewrite Ht, Hi, Hv.
    rewrite (generateHaikuFromAPI_failure env remote u _ key msg _ Hk Hne Hr).
    repeat split.
Qed.


(** Property X14.  After a successful remote call the stored haiku is the
    response text without a run of white space at each end: the text is
    that run, the haiku, and another run, and the haiku neither begins nor
    ends with white space. *)
Theorem stored_response_is_the_text_without_its_margins (s : state) (key r : jsstring) :
  JsString.trim (input s) <> [] ->
  VITE_GEMINI_API_KEY env = Some key -> key <> [] ->
  remote key (model (API_CONFIG env))
         (fill (JsString.trim (input s)) promptTemplate) = Responds r ->
  exists pre h post,
    haiku (final_state (handleGenerate env remote u s)) = Some h
    /\ r = pre ++ h ++ post
    /\ forallb JsString.is_white_space pre = true
    /\ forallb JsString.is_white_space post = true
    /\ starts_clean h
    /\ starts_clean (rev h).
Proof.
  intros Hin Hk Hne Hr.
  rewrite handleGenerate_dispatch by assumption.
  change (apiKey (API_CONFIG env)) with (VITE_GEMINI_API_KEY env).
  rewrite Hk. simpl maybe_truthy. apply truthy_true in Hne as Ht. rewrite Ht.
  rewrite (generateHaikuFromAPI_success env remote u _ key r s Hk Hne Hr).
  destruct (trim_spec r) as (pre & post & E & Hp & Hq & Hc & Hd).
  exists pre, (JsString.trim r), post. repeat split; assumption.
Qed.

(** Property X15.  Whenever an attempt calls the remote service, its prompt
    is built from a theme that is not empty, neither begins nor ends with
    white space, and is the input without a run of white space at each
    end. *)
Theorem theme_is_the_input_without_its_margins (s : state) (key model prompt : jsstring) :
  In (GenerateContent key model prompt) (trace (handleGenerate env remote u s)) ->
  exists pre theme post,
    prompt = fill theme promptTemplate
    /\ input s = pre ++ theme ++ post
    /\ theme <> []
    /\ forallb JsString.is_white_space pre = true
    /\ forallb JsString.is_white_space post = true
    /\ starts_clean theme
    /\ starts_clean (rev theme).
Proof.
  intros H.
  destruct (trim_spec (input s)) as (pre & post & E & Hp & Hq & Hc & Hd).
  exists pre, (JsString.trim (input s)), post.
  destruct (handleGenerate_cases env remote u s) as [Hb E'|Hn Hk E'|k r Hn Hk Hne Hr E'|k msg Hn Hk Hne Hr E'];
    cbv zeta in E'; rewrite E' in H; cbn [trace snd] in H;
    unfold catch_note in H; try destruct (rate_limited msg);
    cbn [In] in H; repeat (destruct H as [H|H]; try discriminate);
    try contradiction;
    injection H as _ _ <-; repeat split; assumption.
Qed.

(** Property X16.  Called with a missing or empty key,
    [generateHaikuFromAPI] makes no remote call: it completes normally,
    logs the error, sets the error message to the missing-key text, which
    is rendered, stores a fallback haiku and lowers the in-progress
    flag. *)
Theorem direct_call_without_key_reports_it (theme : jsstring) (s : state) :
  maybe_truthy (VITE_GEMINI_API_KEY env) = false ->
  Double.unit_interval u ->
  let run := generateHaikuFromAPI env remote u theme s in
  outcome run = Normal tt
  /\ error (final_state run) = missing_key_message
  /\ errorShown (final_state run) = true
  /\ remote_calls (trace run) = []
  /\ isGenerating (final_state run) = false
  /\ (exists h, haiku (final_state run) = Some h /\ is_fallback_haiku theme h)
  /\ In (ConsoleError (lit "Error generating haiku:") MissingApiKey) (trace run).
Proof.
  intros Hk Hu run. subst run.
  rewrite generateHaikuFromAPI_missing_key by assumption.
  destruct (randomHaiku_fallback u theme Hu) as (h & Hg & Hf). rewrite Hg.
  repeat split.
  - now exists h.
  - cbn. tauto.
Qed.

End Extras3.

(** Property X17.  How the environment is read.  The configured endpoint
    is never used; a model name that is unset or empty stands for
    "gemini-2.5-flash"; and an empty key is treated like a missing one.  In
    each case the two environments give the same run of [handleGenerate]
    from every state. *)
Theorem environment_defaults
    (e e' key mdl : maybe_string)
    (remote : jsstring -> jsstring -> jsstring -> remote_outcome)
    (u : Double.t) (s : state) :
  handleGenerate (mkEnv e key mdl) remote u s
  = handleGenerate (mkEnv e' key mdl) remote u s
  /\ (maybe_truthy mdl = false ->
      handleGenerate (mkEnv e key mdl) remote u s
      = handleGenerate (mkEnv e key (Some (lit "gemini-2.5-flash"))) remote u s)
  /\ (maybe_truthy key = false ->
      handleGenerate (mkEnv e key mdl) remote u s
      = handleGenerate (mkEnv e None mdl) remote u s).
Proof.
  split; [reflexivity|]. split.
  - intros Hm. destruct mdl as [[|c m]|]; [reflexivity | discriminate | reflexivity].
  - intros Hk. destruct key as [[|c k]|]; [|discriminate|reflexivity].
    unfold handleGenerate.
    destruct (negb (JsString.truthy (JsString.trim (input s)))); reflexivity.
Qed.

(** Property X18.  Without a key, an attempt on an input whose trim is not
    empty waits 1500 ms first, then stores a fallback haiku that contains
    the theme, and leaves the error message exactly as it was: this path
    never calls [setError]. *)
Theorem no_key_attempt_leaves_error_untouched (env : Env)
    (remote : jsstring -> jsstring -> jsstring -> remote_outcome)
    (u : Double.t) (s : state) :
  JsString.trim (input s) <> [] ->
  maybe_truthy (VITE_GEMINI_API_KEY env) = false ->
  Double.unit_interval u ->
  let run := handleGenerate env remote u s in
  error (final_state run) = error s
  /\ errorShown (final_state run) = errorShown s
  /\ (forall v, ~ In (SetError v) (trace run))
  /\ exists h, haiku (final_state run) = Some h
               /\ JsString.substring_of (JsString.trim (input s)) h
               /\ trace run = [SetIsGenerating true; SetTimeout 1500; MathRandom u;
                               SetHaiku (Some h); SetIsGenerating false].
Proof.
  intros Hin Hk Hu run. subst run. rewrite handleGenerate_no_key by assumption.
  destruct (randomHaiku_fallback u (JsString.trim (input s)) Hu) as (h & Hg & Hf).
  rewrite Hg. split; [reflexivity|]. split; [reflexivity|]. split.
  - intros v H. cbn [trace snd In] in H. intuition discriminate.
  - exists h. repeat split. now apply fallback_contains_theme.
Qed.

(** Property X19.  Enter on a blank field, then typing a word, then an
    attempt without a key: the haiku panel shows a fallback haiku and the
    error banner still shows the validation message of the first step,
    because neither the field's [onChange] nor the path without a key
    clears it. *)
Theorem validation_banner_survives_typing (env : Env)
    (remote : jsstring -> jsstring -> jsstring -> remote_outcome)
    (u : Double.t) (s : state) (v : jsstring) :
  JsString.trim (input s) = [] ->
  JsString.trim v <> [] ->
  maybe_truthy (VITE_GEMINI_API_KEY env) = false ->
  Double.unit_interval u ->
  let s1 := final_state (handleKeyPress env remote u (lit "Enter") s) in
  let s2 := final_state (handleChange v s1) in
  let run := handleGenerate env remote u s2 in
  errorShown s1 = true
  /\ error s2 = validation_message
  /\ generateDisabled s2 = isGenerating s
  /\ error (final_state run) = validation_message
  /\ errorShown (final_state run) = true
  /\ haikuShown (final_state run) = true.
Proof.
  intros Hb Hv Hk Hu s1 s2 run.
  assert (E1 : s1 = mkState (input s) (haiku s) (isGenerating s) (showInfo s)
                            validation_message).
  { subst s1. change (handleKeyPress env remote u (lit "Enter") s)
      with (handleGenerate env remote u s).
    now rewrite handleGenerate_blank. }
  assert (E2 : s2 = mkState v (haiku s) (isGenerating s) (showInfo s)
                            validation_message).
  { subst s2. rewrite E1. reflexivity. }
  split; [rewrite E1; reflexivity|]. split; [rewrite E2; reflexivity|]. split.
  { unfold generateDisabled. rewrite E2; cbn [input isGenerating].
    apply truthy_true in Hv. rewrite Hv. apply orb_false_r. }
  subst run. rewrite handleGenerate_no_key by (rewrite ?E2; assumption).
  rewrite E2; cbn [input showInfo error].
  destruct (randomHaiku_fallback u (JsString.trim v) Hu) as (h & Hg & Hf).
  rewrite Hg. unfold final_state, errorShown, haikuShown; cbn [fst snd error haiku].
  split; [reflexivity|]. split; [reflexivity|].
  apply truthy_true. now apply (fallback_nonempty (JsString.trim v)).
Qed.

(** ** The further properties at sample inputs *)

Import MoreSamples.

Lemma enabled_button_witness :
  let run := handleGenerate env_key remote_ok half typed_moon in
  isGenerating typed_moon = false
  /\ JsString.trim (input typed_moon) <> []
  /\ In (SetIsGenerating true) (trace run)
  /\ (exists v, In (SetHaiku v) (trace run))
  /\ trace run <> [SetError validation_message].
Proof.
  apply (enabled_button_starts_an_attempt env_key remote_ok half typed_moon).
  reflexivity.
Defined.

Lemma blank_response_witness :
  let run := handleGenerate env_key remote_blank half typed_moon in
  haiku (final_state run) = Some []
  /\ haikuShown (final_state run) = false
  /\ errorShown (final_state run) = false
  /\ (forall d, ~ In (MathRandom d) (trace run)).
Proof.
  apply (blank_response_shows_nothing env_key remote_blank half typed_moon
           (lit "AIza-test-key") (lit "  " ++ JsString.nl ++ lit " ")).
  - vm_compute; discriminate.
  - reflexivity.
  - vm_compute; discriminate.
  - reflexivity.
  - reflexivity.
Defined.

Lemma fallback_shown_witness :
  let run := generateFallbackHaiku three_quarters [] typed_moon in
  haikuShown (final_state run) = true
  /\ (exists h, haiku (final_state run) = Some h /\ h <> []
                /\ JsString.substring_of [] h)
  /\ input (final_state run) = input typed_moon
  /\ isGenerating (final_state run) = isGenerating typed_moon
  /\ showInfo (final_state run) = showInfo typed_moon
  /\ error (final_state run) = error typed_moon.
Proof.
  apply (fallback_haiku_is_always_shown three_quarters [] typed_moon).
  in_unit_interval.
Defined.

Lemma controls_enabled_witness :
  let s' := final_state (handleGenerate env_key remote_network half busy) in
  inputDisabled s' = false
  /\ sampleDisabled s' = false
  /\ generateDisabled s' = false.
Proof.
  apply (controls_enabled_after_attempt env_key remote_network half busy).
  vm_compute; discriminate.
Defined.

Lemma api_attempt_overwrites_witness :
  handleGenerate env_key remote_network half
    (mkState (input typed_moon) None true (showInfo typed_moon) (lit "stale"))
  = handleGenerate env_key remote_network half typed_moon.
Proof.
  apply (api_attempt_overwrites_earlier_result env_key remote_network half
           typed_moon None true (lit "stale")).
  - vm_compute; discriminate.
  - reflexivity.
Defined.

Lemma haiku_stays_a_string_witness :
  haiku (final_state (handleGenerate env_no_key remote_ok below_third typed_moon))
  <> None.
Proof.
  apply (haiku_stays_a_string env_no_key remote_ok below_third typed_moon).
  - in_unit_interval.
  - vm_compute; discriminate.
Defined.

Lemma sample_then_generate_witness :
  let clicked := final_state (handleSampleClick (lit "rain") moon_after_blank) in
  let run := handleGenerate env_no_key remote_ok eighth clicked in
  generateDisabled clicked = isGenerating moon_after_blank
  /\ input (final_state run) = lit "rain"
  /\ error (final_state run) = []
  /\ errorShown (final_state run) = false
  /\ exists h, haiku (final_state run) = Some h
               /\ is_fallback_haiku (lit "rain") h
               /\ JsString.substring_of (lit "rain") h
               /\ JsString.count 10 h = 2%nat.
Proof.
  apply (sample_then_generate_without_key env_no_key remote_ok eighth
           (lit "rain") moon_after_blank).
  - do 5 right; left. reflexivity.
  - reflexivity.
  - in_unit_interval.
Defined.

Lemma surrounding_white_space_witness :
  let run := handleGenerate env_key remote_ok half typed_moon in
  let run' := handleGenerate env_key remote_ok half (with_input typed_moon moon_tabbed) in
  outcome run' = outcome run
  /\ trace run' = trace run
  /\ haiku (final_state run') = haiku (final_state run)
  /\ error (final_state run') = error (final_state run)
  /\ isGenerating (final_state run') = isGenerating (final_state run)
  /\ input (final_state run') = moon_tabbed.
Proof.
  apply (surrounding_white_space_is_ignored env_key remote_ok half typed_moon
           moon_tabbed).
  reflexivity.
Defined.


Lemma stored_response_witness :
  exists pre h post,
    haiku (final_state (handleGenerate env_key remote_ok half typed_moon)) = Some h
    /\ lit "  " ++ three_lines ++ JsString.nl = pre ++ h ++ post
    /\ forallb JsString.is_white_space pre = true
    /\ forallb JsString.is_white_space post = true
    /\ starts_clean h
    /\ starts_clean (rev h).
Proof.
  apply (stored_response_is_the_text_without_its_margins env_key remote_ok half
           typed_moon (lit "AIza-test-key")).
  - vm_compute; discriminate.
  - reflexivity.
  - vm_compute; discriminate.
  - reflexivity.
Defined.

Lemma theme_margins_witness :
  exists pre theme post,
    fill (lit "moon") promptTemplate = fill theme promptTemplate
    /\ input typed_moon = pre ++ theme ++ post
    /\ theme <> []
    /\ forallb JsString.is_white_space pre = true
    /\ forallb JsString.is_white_space post = true
    /\ starts_clean theme
    /\ starts_clean (rev theme).
Proof.
  apply (theme_is_the_input_without_its_margins env_key remote_ok half typed_moon
           (lit "AIza-test-key") (lit "gemini-2.5-flash")
           (fill (lit "moon") promptTemplate)).
  right; right; left. reflexivity.
Defined.

Lemma direct_call_without_key_witness :
  let run := generateHaikuFromAPI (mkEnv None (Some []) None) remote_ok half
               (lit "moon") typed_moon in
  outcome run = Normal tt
  /\ error (final_state run) = missing_key_message
  /\ errorShown (final_state run) = true
  /\ remote_calls (trace run) = []
  /\ isGenerating (final_state run) = false
  /\ (exists h, haiku (final_state run) = Some h /\ is_fallback_haiku (lit "moon") h)
  /\ In (ConsoleError (lit "Error generating haiku:") MissingApiKey) (trace run).
Proof.
  apply (direct_call_without_key_reports_it (mkEnv None (Some []) None) remote_ok
           half (lit "moon") typed_moon).
  - reflexivity.
  - in_unit_interval.
Defined.

Lemma no_key_attempt_untouched_witness :
  let run := handleGenerate env_no_key remote_ok half typed_moon in
  error (final_state run) = error typed_moon
  /\ errorShown (final_state run) = errorShown typed_moon
  /\ (forall v, ~ In (SetError v) (trace run))
  /\ exists h, haiku (final_state run) = Some h
               /\ JsString.substring_of (JsString.trim (input typed_moon)) h
               /\ trace run = [SetIsGenerating true; SetTimeout 1500; MathRandom half;
                               SetHaiku (Some h); SetIsGenerating false].
Proof.
  apply (no_key_attempt_leaves_error_untouched env_no_key remote_ok half typed_moon).
  - vm_compute; discriminate.
  - reflexivity.
  - in_unit_interval.
Defined.

Lemma validation_banner_witness :
  let s1 := final_state (handleKeyPress env_no_key remote_ok half (lit "Enter") blank) in
  let s2 := final_state (handleChange (lit "moon") s1) in
  let run := handleGenerate env_no_key remote_ok half s2 in
  errorShown s1 = true
  /\ error s2 = validation_message
  /\ generateDisabled s2 = isGenerating blank
  /\ error (final_state run) = validation_message
  /\ errorShown (final_state run) = true
  /\ haikuShown (final_state run) = true.
Proof.
  apply (validation_banner_survives_typing env_no_key remote_ok half blank (lit "moon")).
  - reflexivity.
  - vm_compute; discriminate.
  - reflexivity.
  - in_unit_interval.
Defined.
